(** * LazyCollection: a shallow embedding of [main.py]

    The Python class [LazyCollection] wraps an iterable and builds pipelines
    of generators over it.  This development embeds the iterator protocol
    (an iterator is a cursor state with a [next] function), the generators of
    [main.py] as transformers of [next] functions, and the class itself as a
    record holding the wrapped source.

    Evaluation may diverge (a filter over an infinite source that never
    matches), so every [next] function and every loop takes a fuel argument:
    [None] means the fuel ran out, [Some _] is the outcome of the call. *)

From Stdlib Require Import String ZArith List Bool Arith Lia Permutation Sorted.
Import ListNotations.

Set Implicit Arguments.

(** ** The iterator protocol *)

Module Py.

(** Exceptions that can travel through a pipeline. *)
Inductive exn : Type :=
| ValueError (msg : string)
| KeyError (msg : string)
| TypeError (msg : string)
| Exception (msg : string).

(** Outcome of one call to [next(it)]: an item, [StopIteration], or another
    exception; each with the state of the iterator after the call. *)
Inductive step (A S : Type) : Type :=
| Yield (item : A) (s : S)
| StopIteration (s : S)
| Raise (e : exn) (s : S).

Arguments Yield {A S} item s.
Arguments StopIteration {A S} s.
Arguments Raise {A S} e s.

(** Value returned by a call that may raise. *)
Inductive result (V : Type) : Type :=
| Ok (v : V)
| Err (e : exn).

Arguments Ok {V} v.
Arguments Err {V} e.

(** [next] of an iterator with cursor states [S]: fuel, then the state. *)
Definition next_fn (A S : Type) : Type := nat -> S -> option (step A S).

(** Iterators over indexable containers ([list_iterator], [range_iterator]):
    the state is the index of the next item, that is, the number of items
    drawn so far.  Past the end the iterator keeps raising StopIteration. *)
Definition seq_next {A : Type} (item_at : nat -> option A) : next_fn A nat :=
  fun _ i =>
    match item_at i with
    | Some x => Some (Yield x (S i))
    | None => Some (StopIteration i)
    end.

(** [iter(l)] for a list [l]. *)
Definition list_iterator {A : Type} (l : list A) : next_fn A nat :=
  seq_next (nth_error l).

(** [len(range(start, stop, step))] for a non-zero step. *)
Definition range_len (start stop step : Z) : nat :=
  if (0 <? step)%Z then
    if (start <? stop)%Z then Z.to_nat (1 + (stop - 1 - start) / step) else 0
  else
    if (stop <? start)%Z then Z.to_nat (1 + (start - 1 - stop) / (- step)) else 0.

Definition range_at (start stop step : Z) (i : nat) : option Z :=
  if i <? range_len start stop step then Some (start + Z.of_nat i * step)%Z
  else None.

(** [iter(range(start, stop, step))]. *)
Definition range_iterator (start stop step : Z) : next_fn Z nat :=
  seq_next (range_at start stop step).

(** The items of [range(start, stop, step)], as a list. *)
Definition range_items (start stop step : Z) : list Z :=
  List.map (fun i => (start + Z.of_nat i * step)%Z)
           (seq 0 (range_len start stop step)).

(** An unbounded counter 0, 1, 2, ... (an infinite source). *)
Definition count_iterator : next_fn Z nat :=
  seq_next (fun i => Some (Z.of_nat i)).

(** A generator object: the frame of its body and whether it has returned.
    Once the body returns or raises, every later [next] raises StopIteration
    without running the body again. *)
Record gen (L : Type) : Type := Gen { finished : bool; frame : L }.

Definition gen_next {A L : Type} (body : next_fn A L) : next_fn A (gen L) :=
  fun fuel g =>
    if finished g then Some (StopIteration g)
    else
      match body fuel (frame g) with
      | None => None
      | Some (Yield x l) => Some (Yield x (Gen false l))
      | Some (StopIteration l) => Some (StopIteration (Gen true l))
      | Some (Raise e l) => Some (Raise e (Gen true l))
      end.

Section Builtins.
Variables A S : Type.
Variable nxt : next_fn A S.

(** [enumerate(it)]: pairs each item with a counter that starts at 0. *)
Definition enumerate_next : next_fn (nat * A) (S * nat) :=
  fun fuel st =>
    let '(s, i) := st in
    match nxt fuel s with
    | None => None
    | Some (Yield x s') => Some (Yield (i, x) (s', Datatypes.S i))
    | Some (StopIteration s') => Some (StopIteration (s', i))
    | Some (Raise e s') => Some (Raise e (s', i))
    end.

(** [list(it)]: draws until StopIteration. *)
Fixpoint list_loop (fuel : nat) (s : S) (acc : list A)
  : option (result (list A) * S) :=
  match fuel with
  | 0 => None
  | Datatypes.S f =>
      match nxt f s with
      | None => None
      | Some (Yield x s') => list_loop f s' (acc ++ [x])
      | Some (StopIteration s') => Some (Ok acc, s')
      | Some (Raise e s') => Some (Err e, s')
      end
  end.

Definition list_ (fuel : nat) (s : S) : option (result (list A) * S) :=
  list_loop fuel s [].

(** [functools.reduce(function, it, initial)]. *)
Fixpoint reduce_loop {O : Type} (function : O -> A -> O)
         (fuel : nat) (s : S) (acc : O) : option (result O * S) :=
  match fuel with
  | 0 => None
  | Datatypes.S f =>
      match nxt f s with
      | None => None
      | Some (Yield x s') => reduce_loop function f s' (function acc x)
      | Some (StopIteration s') => Some (Ok acc, s')
      | Some (Raise e s') => Some (Err e, s')
      end
  end.

(** [sum(1 for _ in it)]. *)
Fixpoint count_loop (fuel : nat) (s : S) (acc : Z) : option (result Z * S) :=
  match fuel with
  | 0 => None
  | Datatypes.S f =>
      match nxt f s with
      | None => None
      | Some (Yield _ s') => count_loop f s' (acc + 1)%Z
      | Some (StopIteration s') => Some (Ok acc, s')
      | Some (Raise e s') => Some (Err e, s')
      end
  end.
End Builtins.

Section BoolBuiltins.
Variable S : Type.
Variable nxt : next_fn bool S.

(** [any(it)]: true at the first true item, false at StopIteration. *)
Fixpoint any_ (fuel : nat) (s : S) : option (result bool * S) :=
  match fuel with
  | 0 => None
  | Datatypes.S f =>
      match nxt f s with
      | None => None
      | Some (Yield true s') => Some (Ok true, s')
      | Some (Yield false s') => any_ f s'
      | Some (StopIteration s') => Some (Ok false, s')
      | Some (Raise e s') => Some (Err e, s')
      end
  end.

(** [all(it)]: false at the first false item, true at StopIteration. *)
Fixpoint all_ (fuel : nat) (s : S) : option (result bool * S) :=
  match fuel with
  | 0 => None
  | Datatypes.S f =>
      match nxt f s with
      | None => None
      | Some (Yield false s') => Some (Ok false, s')
      | Some (Yield true s') => all_ f s'
      | Some (StopIteration s') => Some (Ok true, s')
      | Some (Raise e s') => Some (Err e, s')
      end
  end.
End BoolBuiltins.

(** A [dict] keeps its keys in insertion order: an association list with
    one entry per key. *)
Section Dict.
Variables K V : Type.
Variable eqb : K -> K -> bool.

Definition dict : Type := list (K * V).

(** [key in d] *)
Fixpoint contains (d : dict) (key : K) : bool :=
  match d with
  | [] => false
  | (k, _) :: d' => if eqb k key then true else contains d' key
  end.

(** [d[key]] *)
Fixpoint getitem (d : dict) (key : K) : option V :=
  match d with
  | [] => None
  | (k, v) :: d' => if eqb k key then Some v else getitem d' key
  end.

(** [d[key] = v]: replaces the value in place, or appends a new entry. *)
Fixpoint setitem (d : dict) (key : K) (v : V) : dict :=
  match d with
  | [] => [(key, v)]
  | (k, w) :: d' =>
      if eqb k key then (k, v) :: d' else (k, w) :: setitem d' key v
  end.

Definition keys (d : dict) : list K := List.map fst d.
Definition values (d : dict) : list V := List.map snd d.
End Dict.

(** Every operation of a [dict] or a [set] on a key starts with [hash(key)],
    which raises TypeError for an unhashable key (a list, a dict, a set):
    [hash] is [None] for those.  The functions above are the table
    operations that follow the hashing: for keys whose [==] is [eqb] and
    whose hash is a function of the key, the entry found by hash and [==] is
    the entry with an equal key. *)
Definition unhashable : exn := TypeError "unhashable type".

(** [zip(it1, it2)]: draws from the first iterator, then from the second,
    and stops as soon as one of them does; an item already drawn from the
    first is dropped when the second has none left. *)
Section Zip.
Variables A B S1 S2 : Type.
Variable nxt1 : next_fn A S1.
Variable nxt2 : next_fn B S2.

Definition zip_next : next_fn (A * B) (S1 * S2) :=
  fun fuel st =>
    match nxt1 fuel (fst st) with
    | None => None
    | Some (Yield a s1) =>
        match nxt2 fuel (snd st) with
        | None => None
        | Some (Yield b s2) => Some (Yield (a, b) (s1, s2))
        | Some (StopIteration s2) => Some (StopIteration (s1, s2))
        | Some (Raise e s2) => Some (Raise e (s1, s2))
        end
    | Some (StopIteration s1) => Some (StopIteration (s1, snd st))
    | Some (Raise e s1) => Some (Raise e (s1, snd st))
    end.
End Zip.

(** [sorted(l, key=key, reverse=reverse)]: a stable sort that compares the
    keys with [<] only.  Each item is put in front of the sorted rest,
    behind the items that must come strictly before it.  This is the list
    [sorted] returns when [<] orders the keys consistently (a strict weak
    order: asymmetric, with a transitive negation), where the stable sorted
    order is unique; for any other [<] the list [sorted] returns depends on
    the comparisons its algorithm happens to make, and is not described
    here.  The facts proved about [sorted] assume such an order. *)
Section Sorted.
Variables A B : Type.
Variable lt : B -> B -> bool.
Variable key : A -> B.

Definition comes_first (reverse : bool) (y x : A) : bool :=
  if reverse then lt (key x) (key y) else lt (key y) (key x).

Fixpoint insert_sorted (reverse : bool) (x : A) (l : list A) : list A :=
  match l with
  | [] => [x]
  | y :: l' =>
      if comes_first reverse y x then y :: insert_sorted reverse x l'
      else x :: y :: l'
  end.

Definition sorted (l : list A) (reverse : bool) : list A :=
  fold_right (insert_sorted reverse) [] l.
End Sorted.

End Py.

(** ** The class [LazyCollection] *)

Module LazyCollection.
Import Py.

(** What [iter(self._source)] does: an iterable container (a list, a range)
    hands out a fresh iterator on every call, so it can be iterated again;
    a generator (or any other iterator) hands out itself, so every consumer
    shares one cursor. *)
Inductive source_kind : Type := Iterable | Generator.

(** An instance.  [_source] is the cursor [iter(self._source)] returns now:
    for an [Iterable] the start of the container, for a [Generator] the
    current state of the generator object. *)
Record t (A : Type) : Type := LazyCollection {
  state : Type;
  kind : source_kind;
  _source : state;
  next : next_fn A state
}.

(** [LazyCollection(l)] for a list [l]. *)
Definition of_list {A : Type} (l : list A) : t A :=
  LazyCollection Iterable 0 (list_iterator l).

(** [LazyCollection(it)] for an iterator [it] that is not restartable. *)
Definition of_iterator {A S : Type} (nxt : next_fn A S) (s : S) : t A :=
  LazyCollection Generator s nxt.

(** [LazyCollection(g)] for a generator with body [body], not yet started. *)
Definition of_generator {A L : Type} (body : next_fn A L) (l : L) : t A :=
  LazyCollection Generator (Gen false l) (gen_next body).

(** [__iter__]: [return iter(self._source)]. *)
Definition __iter__ {A : Type} (self : t A) : state self := _source self.

(** The instance after a consumer has moved the cursor to [s]: a restartable
    source is unchanged, a generator stays where the consumer left it. *)
Definition advance {A : Type} (self : t A) (s : state self) : t A :=
  match kind self with
  | Iterable => self
  | Generator => LazyCollection (kind self) s (next self)
  end.

(** *** Generator bodies

    Each takes the [next] function of the iterator it draws from. *)
Section Generators.
Variables A S : Type.
Variable nxt : next_fn A S.

(** [(item for item in self if predicate(item))] *)
Fixpoint filter_genexpr (predicate : A -> bool) (fuel : nat) (s : S)
  : option (step A S) :=
  match fuel with
  | 0 => None
  | Datatypes.S f =>
      match nxt f s with
      | None => None
      | Some (Yield item s') =>
          if predicate item then Some (Yield item s')
          else filter_genexpr predicate f s'
      | Some (StopIteration s') => Some (StopIteration s')
      | Some (Raise e s') => Some (Raise e s')
      end
  end.

(** [(transform(item) for item in self)] *)
Definition map_genexpr {O : Type} (transform : A -> O) : next_fn O S :=
  fun fuel s =>
    match nxt fuel s with
    | None => None
    | Some (Yield item s') => Some (Yield (transform item) s')
    | Some (StopIteration s') => Some (StopIteration s')
    | Some (Raise e s') => Some (Raise e s')
    end.

(** [take_generator]: [for i, item in enumerate(self)], break when
    [i >= n], else yield the item.  The item is drawn before the test. *)
Definition take_generator (n : Z) : next_fn A (S * nat) :=
  fun fuel st =>
    match enumerate_next nxt fuel st with
    | None => None
    | Some (Yield (i, item) st') =>
        if (Z.of_nat i >=? n)%Z then Some (StopIteration st')
        else Some (Yield item st')
    | Some (StopIteration st') => Some (StopIteration st')
    | Some (Raise e st') => Some (Raise e st')
    end.

(** [skip_generator]: [for i, item in enumerate(self)], yield the item
    when [i >= n]. *)
Fixpoint skip_generator (n : Z) (fuel : nat) (st : S * nat)
  : option (step A (S * nat)) :=
  match fuel with
  | 0 => None
  | Datatypes.S f =>
      match enumerate_next nxt f st with
      | None => None
      | Some (Yield (i, item) st') =>
          if (Z.of_nat i >=? n)%Z then Some (Yield item st')
          else skip_generator n f st'
      | Some (StopIteration st') => Some (StopIteration st')
      | Some (Raise e st') => Some (Raise e st')
      end
  end.

(** Where [chunk_generator] is suspended: inside the [for] loop, or at
    the last [yield], after the loop. *)
Inductive chunk_pc : Type := InLoop | AfterLoop.

(** The [for] loop of [chunk_generator] with the local list [chunk]. *)
Fixpoint chunk_loop (size : Z) (fuel : nat) (s : S) (chunk : list A)
  : option (step (list A) (S * chunk_pc)) :=
  match fuel with
  | 0 => None
  | Datatypes.S f =>
      match nxt f s with
      | None => None
      | Some (Yield item s') =>
          let chunk := chunk ++ [item] in
          if (Z.of_nat (length chunk) =? size)%Z
          then Some (Yield chunk (s', InLoop))
          else chunk_loop size f s' chunk
      | Some (StopIteration s') =>
          match chunk with
          | [] => Some (StopIteration (s', AfterLoop))
          | _ :: _ => Some (Yield chunk (s', AfterLoop))
          end
      | Some (Raise e s') => Some (Raise e (s', InLoop))
      end
  end.

(** [chunk_generator]: every entry into the loop starts from [chunk = []]
    (at the first call, and after [chunk = []] following a yield). *)
Definition chunk_generator (size : Z) : next_fn (list A) (S * chunk_pc) :=
  fun fuel st =>
    match snd st with
    | InLoop => chunk_loop size fuel (fst st) []
    | AfterLoop => Some (StopIteration st)
    end.
(** [(subitem for item in self for subitem in transform(item))]: the frame
    holds the upstream cursor and the iterator over the current
    [transform(item)], as the subitems it has left. *)
Fixpoint flat_map_genexpr {O : Type} (transform : A -> list O) (fuel : nat)
         (st : S * list O) : option (step O (S * list O)) :=
  match snd st with
  | subitem :: rest => Some (Yield subitem (fst st, rest))
  | [] =>
      match fuel with
      | 0 => None
      | Datatypes.S f =>
          match nxt f (fst st) with
          | None => None
          | Some (Yield item s') => flat_map_genexpr transform f (s', transform item)
          | Some (StopIteration s') => Some (StopIteration (s', []))
          | Some (Raise e s') => Some (Raise e (s', []))
          end
      end
  end.

(** [(item for item in self if not (item in seen or seen.add(item)))]: the
    frame holds the upstream cursor and the set [seen], as the list of its
    members.  [item in seen] hashes the item first, and raises TypeError
    when it is unhashable. *)
Fixpoint distinct_genexpr (hash : A -> option Z) (eqb : A -> A -> bool)
         (fuel : nat) (st : S * list A) : option (step A (S * list A)) :=
  match fuel with
  | 0 => None
  | Datatypes.S f =>
      match nxt f (fst st) with
      | None => None
      | Some (Yield item s') =>
          match hash item with
          | None => Some (Raise unhashable (s', snd st))
          | Some _ =>
              if existsb (eqb item) (snd st)
              then distinct_genexpr hash eqb f (s', snd st)
              else Some (Yield item (s', item :: snd st))
          end
      | Some (StopIteration s') => Some (StopIteration (s', snd st))
      | Some (Raise e s') => Some (Raise e (s', snd st))
      end
  end.
End Generators.

(** *** Lazy operators

    Each builds a generator over [iter(self)] and wraps it in a new
    instance.  The cursor of the upstream lives in the frame of the new
    generator, so drawing from the result moves the upstream cursor with it;
    the model follows one pipeline, from its source to its consumer. *)

Definition filter {A : Type} (self : t A) (predicate : A -> bool) : t A :=
  of_generator (filter_genexpr (next self) predicate) (__iter__ self).

Definition map {A O : Type} (self : t A) (transform : A -> O) : t O :=
  of_generator (map_genexpr (next self) transform) (__iter__ self).

Definition take {A : Type} (self : t A) (n : Z) : t A :=
  of_generator (take_generator (next self) n) (__iter__ self, 0).

Definition skip {A : Type} (self : t A) (n : Z) : t A :=
  of_generator (skip_generator (next self) n) (__iter__ self, 0).

Definition chunk {A : Type} (self : t A) (size : Z) : t (list A) :=
  of_generator (chunk_generator (next self) size) (__iter__ self, InLoop).

Definition paginate {A : Type} (self : t A) (page per_page : Z) : t A :=
  take (skip self ((page - 1) * per_page)%Z) per_page.

Definition enumerate {A : Type} (self : t A) : t (nat * A) :=
  of_iterator (enumerate_next (next self)) (__iter__ self, 0).

Definition flat_map {A O : Type} (self : t A) (transform : A -> list O) : t O :=
  of_generator (flat_map_genexpr (next self) transform) (__iter__ self, []).

(** [distinct]: [seen = set()] is created by the call. *)
Definition distinct {A : Type} (hash : A -> option Z) (eqb : A -> A -> bool)
           (self : t A) : t A :=
  of_generator (distinct_genexpr (next self) hash eqb) (__iter__ self, []).

Definition zip {A O : Type} (self : t A) (other : t O) : t (A * O) :=
  of_iterator (zip_next (next self) (next other))
              (__iter__ self, __iter__ other).

(** *** Terminal operators

    Each returns its value together with the instance after the call. *)

Definition consumed {A V S' : Type} (self : t A) (get : S' -> state self)
           (r : option (result V * S')) : option (result V * t A) :=
  match r with
  | None => None
  | Some (v, s') => Some (v, advance self (get s'))
  end.

Definition collect {A : Type} (fuel : nat) (self : t A)
  : option (result (list A) * t A) :=
  consumed self (fun s => s) (list_ (next self) fuel (__iter__ self)).

(** [sort]: [LazyCollection(sorted(self.collect(), key=key, reverse=reverse))];
    the upstream is drained by the call itself and the result wraps a list.
    [key=None] is the identity function. *)
Definition sort {A B : Type} (lt : B -> B -> bool) (fuel : nat) (self : t A)
           (key : A -> B) (reverse : bool) : option (result (t A) * t A) :=
  match collect fuel self with
  | None => None
  | Some (Ok l, self') => Some (Ok (of_list (sorted lt key l reverse)), self')
  | Some (Err e, self') => Some (Err e, self')
  end.

Definition reduce {A O : Type} (fuel : nat) (self : t A)
           (reducer : O -> A -> O) (initial : O) : option (result O * t A) :=
  consumed self (fun s => s)
           (reduce_loop (next self) reducer fuel (__iter__ self) initial).

(** [first]: [for item in self: return item], then [return None]. *)
Definition first {A : Type} (fuel : nat) (self : t A)
  : option (result (option A) * t A) :=
  match next self fuel (__iter__ self) with
  | None => None
  | Some (Yield item s') => Some (Ok (Some item), advance self s')
  | Some (StopIteration s') => Some (Ok None, advance self s')
  | Some (Raise e s') => Some (Err e, advance self s')
  end.

Definition count {A : Type} (fuel : nat) (self : t A)
  : option (result Z * t A) :=
  consumed self (fun s => s) (count_loop (next self) fuel (__iter__ self) 0%Z).

(** [any]: the default predicate is [lambda x: True]. *)
Definition any {A : Type} (fuel : nat) (self : t A)
           (predicate : option (A -> bool)) : option (result bool * t A) :=
  let predicate :=
    match predicate with
    | None => fun _ => true
    | Some p => p
    end in
  consumed self (@frame _)
           (any_ (gen_next (map_genexpr (next self) predicate)) fuel
                 (Gen false (__iter__ self))).

Definition all {A : Type} (fuel : nat) (self : t A) (predicate : A -> bool)
  : option (result bool * t A) :=
  consumed self (@frame _)
           (all_ (gen_next (map_genexpr (next self) predicate)) fuel
                 (Gen false (__iter__ self))).

Section GroupBy.
Variables A O S : Type.
Variable hash : O -> option Z.
Variable eqb : O -> O -> bool.
Variable nxt : next_fn A S.
Variable key_func : A -> O.

(** One turn of the loop body on the dict [result].  [key not in result],
    the first operation on the key, hashes it and raises TypeError when it
    is unhashable; the operations that follow hash the same key. *)
Definition group_by_body (result : dict O (list A)) (item : A)
  : Py.result (dict O (list A)) :=
  let key := key_func item in
  match hash key with
  | None => Err unhashable
  | Some _ =>
      let result :=
        if contains eqb result key then result
        else setitem eqb result key [] in
      match getitem eqb result key with
      | Some l => Ok (setitem eqb result key (l ++ [item]))
      | None => Err (KeyError "key")
      end
  end.

Fixpoint group_by_loop (fuel : nat) (s : S) (result : dict O (list A))
  : option (Py.result (dict O (list A)) * S) :=
  match fuel with
  | 0 => None
  | Datatypes.S f =>
      match nxt f s with
      | None => None
      | Some (Yield item s') =>
          match group_by_body result item with
          | Ok result' => group_by_loop f s' result'
          | Err e => Some (Err e, s')
          end
      | Some (StopIteration s') => Some (Ok result, s')
      | Some (Raise e s') => Some (Err e, s')
      end
  end.
End GroupBy.

Definition group_by {A O : Type} (hash : O -> option Z) (eqb : O -> O -> bool)
           (fuel : nat) (self : t A) (key_func : A -> O)
  : option (result (dict O (list A)) * t A) :=
  consumed self (fun s => s)
           (group_by_loop hash eqb (next self) key_func fuel (__iter__ self)
                          []).

(** [range(start, stop=None, step=1)]; the builtin [range] rejects a zero
    step when it is called. *)
Definition builtin_range (start stop step : Z) : result (t Z) :=
  if (step =? 0)%Z then Err (ValueError "range() arg 3 must not be zero")
  else Ok (LazyCollection Iterable 0 (range_iterator start stop step)).

Definition range (start : Z) (stop : option Z) (step : Z) : result (t Z) :=
  match stop with
  | None => builtin_range 0 start step
  | Some stop => builtin_range start stop step
  end.

(** The value of a terminal call, without the instance. *)
Definition value {V T : Type} (r : option (result V * T)) : option (result V) :=
  option_map fst r.

(** The instance a terminal call leaves behind. *)
Definition after {V T : Type} (r : option (result V * T)) : option T :=
  option_map snd r.

End LazyCollection.

(** ** Instrumentation and specifications *)

Import Py.

(** A source instrumented to count the items drawn from it: the state of
    the wrapped iterator, paired with the number of items it has handed out. *)
Definition counted {A S : Type} (nxt : next_fn A S) : next_fn A (S * nat) :=
  fun fuel st =>
    match nxt fuel (fst st) with
    | None => None
    | Some (Yield x s') => Some (Yield x (s', Datatypes.S (snd st)))
    | Some (StopIteration s') => Some (StopIteration (s', snd st))
    | Some (Raise e s') => Some (Raise e (s', snd st))
    end.

(** [produces nxt k s l]: from state [s] the iterator hands out exactly the
    items of [l], one per call, and then raises StopIteration; every call
    returns as soon as it is given [k] units of fuel. *)
Fixpoint produces {A S : Type} (nxt : next_fn A S) (k : nat) (s : S)
         (l : list A) : Prop :=
  match l with
  | [] => exists s', forall fuel, k <= fuel -> nxt fuel s = Some (StopIteration s')
  | x :: l' =>
      exists s', (forall fuel, k <= fuel -> nxt fuel s = Some (Yield x s'))
                 /\ produces nxt k s' l'
  end.

(** [denotes c k l]: iterating the instance [c] hands out exactly [l]. *)
Definition denotes {A : Type} (c : LazyCollection.t A) (k : nat) (l : list A)
  : Prop :=
  produces (LazyCollection.next c) k (LazyCollection.__iter__ c) l.

(** An instance is empty when its first [next] raises StopIteration. *)
Definition empty {A : Type} (c : LazyCollection.t A) : Prop :=
  exists k s', forall fuel, k <= fuel ->
    LazyCollection.next c fuel (LazyCollection.__iter__ c) = Some (StopIteration s').

(** [fails_after nxt k s l e]: from state [s] the iterator hands out the
    items of [l] and then raises [e]. *)
Fixpoint fails_after {A S : Type} (nxt : next_fn A S) (k : nat) (s : S)
         (l : list A) (e : exn) : Prop :=
  match l with
  | [] => exists s', forall fuel, k <= fuel -> nxt fuel s = Some (Raise e s')
  | x :: l' =>
      exists s', (forall fuel, k <= fuel -> nxt fuel s = Some (Yield x s'))
                 /\ fails_after nxt k s' l' e
  end.

(** Consecutive groups of [n] items; the last one may be shorter. *)
Fixpoint chunks_upto {A : Type} (fuel n : nat) (l : list A) : list (list A) :=
  match fuel, l with
  | 0, _ => []
  | _, [] => []
  | Datatypes.S f, _ :: _ => firstn n l :: chunks_upto f n (skipn n l)
  end.

Definition chunks {A : Type} (n : nat) (l : list A) : list (list A) :=
  chunks_upto (length l) n l.

(** The distinct keys of a list, in the order of their first occurrence. *)
Fixpoint first_occurrences {K : Type} (eqb : K -> K -> bool) (l : list K)
  : list K :=
  match l with
  | [] => []
  | k :: l' =>
      k :: List.filter (fun k' => negb (eqb k k')) (first_occurrences eqb l')
  end.

(** The grouping the specification describes: one entry per key, keys in
    first-occurrence order, each with the items of that key in order. *)
Definition groups_of {A K : Type} (eqb : K -> K -> bool) (key_func : A -> K)
           (l : list A) : dict K (list A) :=
  List.map (fun k => (k, List.filter (fun x => eqb (key_func x) k) l))
           (first_occurrences eqb (List.map key_func l)).

(** Equal keys are adjacent in [l]: every item that lies between two items
    with the same key has that key too. *)
Definition keys_adjacent {A K : Type} (key_func : A -> K) (l : list A) : Prop :=
  forall (i j m : nat) (x z y : A),
    i <= j -> j <= m ->
    nth_error l i = Some x -> nth_error l j = Some z ->
    nth_error l m = Some y ->
    key_func x = key_func y -> key_func z = key_func x.

(** ** Iterators and the lists they produce *)

Section Produces.
Variables A S : Type.
Variable nxt : next_fn A S.

Lemma produces_mono (k k' : nat) :
  k <= k' -> forall (l : list A) (s : S),
  produces nxt k s l -> produces nxt k' s l.
Proof.
  intros Hk l; induction l as [|x l IH]; intros s H; simpl in *.
  - destruct H as [s' H]. exists s'. intros fuel Hf. apply H. lia.
  - destruct H as [s' [H Hl]]. exists s'. split.
    + intros fuel Hf. apply H. lia.
    + apply IH. exact Hl.
Qed.

(** A state whose calls behave as those of [s0] with one unit less. *)
Lemma produces_shift (k0 k' : nat) (s s0 : S) (l : list A) :
  (forall fuel, k' <= fuel -> nxt fuel s = nxt (fuel - 1) s0) ->
  k0 + 1 <= k' ->
  produces nxt k0 s0 l -> produces nxt k' s l.
Proof.
  intros Hs Hk H. destruct l as [|x l]; simpl in *.
  - destruct H as [s' H]. exists s'. intros fuel Hf.
    rewrite Hs by exact Hf. apply H. lia.
  - destruct H as [s' [H Hl]]. exists s'. split.
    + intros fuel Hf. rewrite Hs by exact Hf. apply H. lia.
    + apply produces_mono with (k := k0); [lia | exact Hl].
Qed.
End Produces.

(** ** What the operators produce *)

Section Operators.
Variables A S : Type.
Variable nxt : next_fn A S.

Lemma list_loop_produces (k : nat) :
  forall (l : list A) (s : S) (fuel : nat) (acc : list A),
  produces nxt k s l -> k + length l + 1 <= fuel ->
  exists s', list_loop nxt fuel s acc = Some (Ok (acc ++ l), s').
Proof.
  induction l as [|x l IH]; intros s fuel acc H Hf; simpl in H.
  - destruct H as [s' H]. exists s'.
    destruct fuel as [|f]; [simpl in Hf; lia|].
    simpl. rewrite H by (simpl in Hf; lia). now rewrite app_nil_r.
  - destruct H as [s' [H Hl]].
    destruct fuel as [|f]; [simpl in Hf; lia|].
    simpl. rewrite H by (simpl in Hf; lia).
    destruct (IH s' f (acc ++ [x]) Hl) as [s'' E]; [simpl in Hf; lia|].
    exists s''. rewrite E. now rewrite <- app_assoc.
Qed.

Lemma take_produces (n : Z) (k : nat) :
  forall (l : list A) (s : S) (i : nat),
  produces nxt k s l ->
  produces (gen_next (LazyCollection.take_generator nxt n)) k
           (Gen false (s, i)) (firstn (Z.to_nat n - i) l).
Proof.
  induction l as [|x l IH]; intros s i H; simpl in H.
  - destruct H as [s' H]. rewrite firstn_nil. simpl.
    exists (Gen true (s', i)). intros fuel Hf.
    unfold gen_next, LazyCollection.take_generator, enumerate_next; simpl.
    now rewrite H.
  - destruct H as [s' [H Hl]].
    destruct (Z.of_nat i >=? n)%Z eqn:E.
    + replace (Z.to_nat n - i) with 0 by (rewrite Z.geb_leb, Z.leb_le in E; lia).
      simpl. exists (Gen true (s', Datatypes.S i)). intros fuel Hf.
      unfold gen_next, LazyCollection.take_generator, enumerate_next; simpl.
      rewrite H by exact Hf. now rewrite E.
    + replace (Z.to_nat n - i) with (Datatypes.S (Z.to_nat n - Datatypes.S i))
        by (rewrite Z.geb_leb, Z.leb_gt in E; lia).
      simpl. exists (Gen false (s', Datatypes.S i)). split.
      * intros fuel Hf.
        unfold gen_next, LazyCollection.take_generator, enumerate_next; simpl.
        rewrite H by exact Hf. now rewrite E.
      * apply IH. exact Hl.
Qed.

Lemma skip_produces (n : Z) (k : nat) :
  forall (l : list A) (s : S) (i : nat),
  produces nxt k s l ->
  produces (gen_next (LazyCollection.skip_generator nxt n)) (k + length l + 1)
           (Gen false (s, i)) (skipn (Z.to_nat n - i) l).
Proof.
  induction l as [|x l IH]; intros s i H; simpl in H.
  - destruct H as [s' H]. rewrite skipn_nil. simpl.
    exists (Gen true (s', i)). intros fuel Hf.
    destruct fuel as [|f]; [lia|].
    unfold gen_next; simpl. now rewrite H by lia.
  - destruct H as [s' [H Hl]].
    destruct (Z.of_nat i >=? n)%Z eqn:E.
    + replace (Z.to_nat n - i) with 0 by (rewrite Z.geb_leb, Z.leb_le in E; lia).
      simpl skipn. simpl produces. exists (Gen false (s', Datatypes.S i)). split.
      * intros fuel Hf. destruct fuel as [|f]; [lia|].
        unfold gen_next; simpl. rewrite H by lia. now rewrite E.
      * apply produces_mono with (k := k + length l + 1); [simpl; lia|].
        specialize (IH s' (Datatypes.S i) Hl).
        replace (Z.to_nat n - Datatypes.S i) with 0 in IH
          by (rewrite Z.geb_leb, Z.leb_le in E; lia).
        exact IH.
    + replace (Z.to_nat n - i) with (Datatypes.S (Z.to_nat n - Datatypes.S i))
        by (rewrite Z.geb_leb, Z.leb_gt in E; lia).
      simpl skipn.
      apply produces_shift with (k0 := k + length l + 1)
                                (s0 := Gen false (s', Datatypes.S i)).
      * intros fuel Hf. destruct fuel as [|f]; [simpl in Hf; lia|].
        replace (Datatypes.S f - 1) with f by lia.
        unfold gen_next; simpl. rewrite H by (simpl in Hf; lia). now rewrite E.
      * simpl. lia.
      * apply IH. exact Hl.
Qed.

(** With a size that no length can reach the loop of [chunk_generator]
    runs to the end of its source and hands out everything at once. *)
Lemma chunk_loop_nonpositive (size : Z) (k : nat) :
  (size <= 0)%Z ->
  forall (l : list A) (s : S), produces nxt k s l ->
  exists s', forall (fuel : nat) (acc : list A),
    k + length l + 1 <= fuel ->
    LazyCollection.chunk_loop nxt size fuel s acc =
    Some (match acc ++ l with
          | [] => StopIteration (s', LazyCollection.AfterLoop)
          | _ :: _ => Yield (acc ++ l) (s', LazyCollection.AfterLoop)
          end).
Proof.
  intros Hsize. induction l as [|x l IH]; intros s H; simpl in H.
  - destruct H as [s' H]. exists s'. intros fuel acc Hf.
    destruct fuel as [|f]; [lia|].
    simpl. rewrite H by lia. rewrite app_nil_r. now destruct acc.
  - destruct H as [s1 [H Hl]]. destruct (IH s1 Hl) as [s' IH'].
    exists s'. intros fuel acc Hf.
    destruct fuel as [|f]; [lia|].
    simpl. rewrite H by (simpl in Hf; lia).
    replace (Z.of_nat (length (acc ++ [x])) =? size)%Z with false
      by (symmetry; apply Z.eqb_neq; rewrite length_app; simpl; lia).
    rewrite IH' by (simpl in Hf; lia).
    now rewrite <- app_assoc.
Qed.

Lemma chunk_produces_nonpositive (size : Z) (k : nat) :
  (size <= 0)%Z ->
  forall (l : list A) (s : S), produces nxt k s l ->
  produces (gen_next (LazyCollection.chunk_generator nxt size))
           (k + length l + 1) (Gen false (s, LazyCollection.InLoop))
           (match l with [] => [] | _ :: _ => [l] end).
Proof.
  intros Hsize l s H.
  destruct (@chunk_loop_nonpositive size k Hsize l s H) as [s' E].
  destruct l as [|x l]; simpl produces.
  - exists (Gen true (s', LazyCollection.AfterLoop)). intros fuel Hf.
    unfold gen_next, LazyCollection.chunk_generator; simpl.
    now rewrite (E fuel [] Hf).
  - exists (Gen false (s', LazyCollection.AfterLoop)). split.
    + intros fuel Hf.
      unfold gen_next, LazyCollection.chunk_generator; simpl.
      now rewrite (E fuel [] Hf).
    + exists (Gen true (s', LazyCollection.AfterLoop)). intros fuel Hf.
      reflexivity.
Qed.
End Operators.

Lemma list_iterator_produces_from (A : Type) :
  forall (l pre : list A),
  produces (list_iterator (pre ++ l)) 0 (length pre) l.
Proof.
  induction l as [|x l IH]; intros pre; simpl.
  - exists (length pre). intros fuel _.
    unfold list_iterator, seq_next.
    replace (nth_error (pre ++ []) (length pre)) with (@None A); [reflexivity|].
    symmetry. apply nth_error_None. rewrite app_nil_r. lia.
  - exists (Datatypes.S (length pre)). split.
    + intros fuel _. unfold list_iterator, seq_next.
      now rewrite nth_error_app2, Nat.sub_diag by lia.
    + specialize (IH (pre ++ [x])).
      rewrite <- app_assoc, length_app in IH. simpl in IH.
      now rewrite Nat.add_1_r in IH.
Qed.

Lemma of_list_produces (A : Type) (l : list A) :
  produces (LazyCollection.next (LazyCollection.of_list l)) 0
           (LazyCollection.__iter__ (LazyCollection.of_list l)) l.
Proof. exact (list_iterator_produces_from l []). Qed.

Lemma collect_produces (A : Type) (c : LazyCollection.t A) (k : nat)
      (l : list A) (fuel : nat) :
  produces (LazyCollection.next c) k (LazyCollection.__iter__ c) l ->
  k + length l + 1 <= fuel ->
  LazyCollection.value (LazyCollection.collect fuel c) = Some (Ok l).
Proof.
  intros H Hf.
  destruct (@list_loop_produces _ _ _ k l _ fuel [] H Hf) as [s' E].
  unfold LazyCollection.collect, list_. now rewrite E.
Qed.

(** The same facts for instances of the class. *)
Section Instances.
Import LazyCollection.
Variable A : Type.

Lemma take_denotes (c : t A) (n : Z) (k : nat) (l : list A) :
  denotes c k l -> denotes (take c n) k (firstn (Z.to_nat n) l).
Proof.
  intros H. unfold denotes. simpl.
  rewrite <- (Nat.sub_0_r (Z.to_nat n)).
  apply take_produces. exact H.
Qed.

Lemma skip_denotes (c : t A) (n : Z) (k : nat) (l : list A) :
  denotes c k l ->
  denotes (skip c n) (k + length l + 1) (skipn (Z.to_nat n) l).
Proof.
  intros H. unfold denotes. simpl.
  rewrite <- (Nat.sub_0_r (Z.to_nat n)).
  apply skip_produces. exact H.
Qed.

Lemma collect_denotes (c : t A) (k : nat) (l : list A) (fuel : nat) :
  denotes c k l -> k + length l + 1 <= fuel ->
  value (collect fuel c) = Some (Ok l).
Proof. apply collect_produces. Qed.

Lemma of_list_denotes (l : list A) : denotes (of_list l) 0 l.
Proof. apply of_list_produces. Qed.

(** What [take(n)] hands out is right: the first [n] items, none for
    [n <= 0]. *)
Lemma take_collects_prefix (l : list A) (n : Z) (fuel : nat) :
  length l + 1 <= fuel ->
  value (collect fuel (take (of_list l) n)) = Some (Ok (firstn (Z.to_nat n) l)).
Proof.
  intros Hf. apply collect_denotes with (k := 0).
  - apply take_denotes, of_list_denotes.
  - rewrite length_firstn. lia.
Qed.
End Instances.

(** [chunk] with a size no chunk length can reach. *)
Lemma chunk_nonpositive_collect (A : Type) (l : list A) (size : Z) (fuel : nat) :
  (size <= 0)%Z -> length l + 3 <= fuel ->
  LazyCollection.value
    (LazyCollection.collect fuel (LazyCollection.chunk (LazyCollection.of_list l) size))
  = Some (Ok (match l with [] => [] | _ :: _ => [l] end)).
Proof.
  intros Hsize Hf.
  apply collect_denotes with (k := 0 + length l + 1).
  - exact (@chunk_produces_nonpositive A nat (list_iterator l) size 0 Hsize
             l 0 (of_list_produces l)).
  - destruct l; simpl in *; lia.
Qed.

(** ** Generators are single-pass *)

Lemma list_loop_generator_finished (A L : Type) (body : next_fn A L) :
  forall (fuel : nat) (g : gen L) (acc l : list A) (g' : gen L),
  list_loop (gen_next body) fuel g acc = Some (Ok l, g') ->
  finished g' = true.
Proof.
  induction fuel as [|f IH]; intros g acc l g' H; simpl in H; [discriminate|].
  unfold gen_next in H at 1.
  destruct (finished g) eqn:Fg.
  - inversion H; subst. exact Fg.
  - destruct (body f (frame g)) as [[x fr|fr|e fr]|]; try discriminate.
    + apply (IH _ _ _ _ H).
    + inversion H; subst. reflexivity.
Qed.

Lemma collect_generator_again (A L : Type) (body : next_fn A L) (l0 : L)
      (fuel : nat) (l : list A) (c' : LazyCollection.t A) :
  LazyCollection.collect fuel (LazyCollection.of_generator body l0)
  = Some (Ok l, c') ->
  forall fuel' : nat,
  LazyCollection.value (LazyCollection.collect (Datatypes.S fuel') c')
  = Some (Ok []).
Proof.
  unfold LazyCollection.collect, LazyCollection.consumed, list_. simpl.
  destruct (list_loop (gen_next body) fuel (Gen false l0) [])
    as [[r g']|] eqn:E; [|discriminate].
  intros H fuel'. inversion H; subst. clear H.
  apply list_loop_generator_finished in E.
  unfold LazyCollection.advance. simpl. unfold gen_next. now rewrite E.
Qed.

(** ** Counting the items drawn from a source *)

Section Counting.
Variable A : Type.
Variable item_at : nat -> option A.

(** One call of [next] on the taking generator: the item is drawn from
    the source first, then the index is tested. *)
Lemma take_counted_step (n : Z) (i c e f : nat) (x : A) :
  item_at i = Some x ->
  gen_next (LazyCollection.take_generator (counted (seq_next item_at)) n)
           f (Gen false ((i, c), e))
  = if (Z.of_nat e >=? n)%Z
    then Some (StopIteration
                 (Gen true ((Datatypes.S i, Datatypes.S c), Datatypes.S e)))
    else Some (Yield x
                 (Gen false ((Datatypes.S i, Datatypes.S c), Datatypes.S e))).
Proof.
  intros H.
  unfold gen_next, LazyCollection.take_generator, enumerate_next,
    counted, seq_next; simpl.
  rewrite H. now destruct (Z.of_nat e >=? n)%Z.
Qed.

(** Draining [take(n)] over a source that still has [d + 1] items, where
    [d] items are left to take: the [d] items are handed out, and one more
    is drawn from the source before the generator stops. *)
Lemma take_counted_drain (n : Z) (g : nat -> A) :
  forall (d i c e : nat) (acc : list A) (fuel : nat),
  Z.to_nat n - e = d ->
  (forall j, j <= d -> item_at (i + j) = Some (g (i + j))) ->
  d + 1 <= fuel ->
  list_loop (gen_next (LazyCollection.take_generator
                         (counted (seq_next item_at)) n))
            fuel (Gen false ((i, c), e)) acc
  = Some (Ok (acc ++ List.map g (seq i d)),
          Gen true ((i + d + 1, c + d + 1), e + d + 1)).
Proof.
  induction d as [|d IH]; intros i c e acc fuel Hd Hitems Hf;
    (destruct fuel as [|f]; [lia|]);
    pose proof (Hitems 0 ltac:(lia)) as H0;
    rewrite Nat.add_0_r in H0;
    cbn [list_loop]; rewrite (@take_counted_step n i c e f _ H0).
  - replace (Z.of_nat e >=? n)%Z with true
      by (symmetry; rewrite Z.geb_leb; apply Z.leb_le; lia).
    simpl. rewrite app_nil_r. repeat f_equal; lia.
  - replace (Z.of_nat e >=? n)%Z with false
      by (symmetry; rewrite Z.geb_leb; apply Z.leb_gt; lia).
    rewrite (IH (Datatypes.S i) (Datatypes.S c) (Datatypes.S e)
                (acc ++ [g i]) f).
    + rewrite <- app_assoc. simpl. repeat f_equal; lia.
    + lia.
    + intros j Hj. replace (Datatypes.S i + j) with (i + Datatypes.S j) by lia.
      apply Hitems. lia.
    + lia.
Qed.

(** [filter] draws exactly up to the first item that satisfies the
    predicate. *)
Lemma filter_counted_first (predicate : A -> bool) (x : A) :
  forall (d i c fuel : nat),
  (forall j, j < d ->
     exists y, item_at (i + j) = Some y /\ predicate y = false) ->
  item_at (i + d) = Some x -> predicate x = true ->
  d + 1 <= fuel ->
  LazyCollection.filter_genexpr (counted (seq_next item_at)) predicate
                                fuel (i, c)
  = Some (Yield x (i + d + 1, c + d + 1)).
Proof.
  induction d as [|d IH]; intros i c fuel Hskip Hx Hp Hf;
    (destruct fuel as [|f]; [lia|]); simpl;
    unfold counted at 1, seq_next at 1; simpl.
  - rewrite Nat.add_0_r in Hx. rewrite Hx, Hp. do 3 f_equal; lia.
  - destruct (Hskip 0 ltac:(lia)) as [y [Hy Hpy]].
    rewrite Nat.add_0_r in Hy. rewrite Hy, Hpy.
    rewrite (IH (Datatypes.S i) (Datatypes.S c) f).
    + do 3 f_equal; lia.
    + intros j Hj. replace (Datatypes.S i + j) with (i + Datatypes.S j) by lia.
      apply Hskip. lia.
    + replace (Datatypes.S i + d) with (i + Datatypes.S d) by lia. exact Hx.
    + exact Hp.
    + lia.
Qed.

(** The counter does not change what the consumer sees. *)
Lemma filter_counted_erase (S : Type) (nxt : next_fn A S)
      (predicate : A -> bool) :
  forall (fuel : nat) (s : S) (c : nat),
  LazyCollection.filter_genexpr nxt predicate fuel s
  = match LazyCollection.filter_genexpr (counted nxt) predicate fuel (s, c) with
    | None => None
    | Some (Yield x st) => Some (Yield x (fst st))
    | Some (StopIteration st) => Some (StopIteration (fst st))
    | Some (Raise e st) => Some (Raise e (fst st))
    end.
Proof.
  induction fuel as [|f IH]; intros s c; simpl; [reflexivity|].
  unfold counted at 1. simpl.
  destruct (nxt f s) as [[x s'|s'|e s']|]; try reflexivity.
  destruct (predicate x); [reflexivity | apply IH].
Qed.
End Counting.

Lemma range_len_unit_step (start stop : Z) :
  (start < stop)%Z -> range_len start stop 1 = Z.to_nat (stop - start).
Proof.
  intros H. unfold range_len.
  replace (0 <? 1)%Z with true by reflexivity.
  replace (start <? stop)%Z with true by (symmetry; apply Z.ltb_lt; exact H).
  rewrite Z.div_1_r. f_equal. lia.
Qed.

Lemma range_at_unit_step (start stop : Z) (i : nat) :
  (Z.of_nat i < stop - start)%Z ->
  range_at start stop 1 i = Some (start + Z.of_nat i)%Z.
Proof.
  intros H. unfold range_at.
  rewrite range_len_unit_step by lia.
  replace (i <? Z.to_nat (stop - start)) with true
    by (symmetry; apply Nat.ltb_lt; lia).
  now rewrite Z.mul_1_r.
Qed.

(** ** Ranges *)

Lemma seq_next_produces (A : Type) (item_at : nat -> option A) (g : nat -> A)
      (len : nat) :
  (forall i, i < len -> item_at i = Some (g i)) -> item_at len = None ->
  forall d i, i + d = len ->
  produces (seq_next item_at) 0 i (List.map g (seq i d)).
Proof.
  intros Hin Hend. induction d as [|d IH]; intros i Hi; simpl.
  - exists i. intros fuel _. unfold seq_next.
    replace i with len by lia. now rewrite Hend.
  - exists (Datatypes.S i). split.
    + intros fuel _. unfold seq_next. now rewrite Hin by lia.
    + apply IH. lia.
Qed.

Lemma range_iterator_produces (start stop step : Z) :
  produces (range_iterator start stop step) 0 0 (range_items start stop step).
Proof.
  unfold range_iterator, range_items.
  apply seq_next_produces with (len := range_len start stop step).
  - intros i Hi. unfold range_at.
    now replace (i <? range_len start stop step) with true
      by (symmetry; apply Nat.ltb_lt; exact Hi).
  - unfold range_at. now rewrite Nat.ltb_irrefl.
  - reflexivity.
Qed.

(** [range_items] is the standard numeric range: the numbers
    [start + i * step], [i >= 0], on the near side of [stop]. *)
Lemma range_items_spec (start stop step x : Z) :
  step <> 0%Z ->
  In x (range_items start stop step)
  <-> exists i : Z,
        (0 <= i)%Z /\ x = (start + i * step)%Z
        /\ (if (0 <? step)%Z then (x < stop)%Z else (stop < x)%Z).
Proof.
  intros Hstep. unfold range_items, range_len. rewrite in_map_iff.
  setoid_rewrite in_seq.
  destruct (0 <? step)%Z eqn:Es.
  - apply Z.ltb_lt in Es.
    destruct (start <? stop)%Z eqn:E;
      [apply Z.ltb_lt in E | apply Z.ltb_ge in E].
    + pose proof (Z.div_mod (stop - 1 - start) step Hstep) as Hdm.
      pose proof (Z.mod_pos_bound (stop - 1 - start) step Es) as Hmb.
      assert (0 <= (stop - 1 - start) / step)%Z
        by (apply Z.div_pos; lia).
      split.
      * intros [n [Hx Hn]]. exists (Z.of_nat n). repeat split; [lia|lia|nia].
      * intros [i [Hi [Hx Hlt]]]. exists (Z.to_nat i). split; [lia|nia].
    + split.
      * intros [n [_ Hn]]. simpl in Hn. lia.
      * intros [i [Hi [Hx Hlt]]]. nia.
  - apply Z.ltb_ge in Es.
    destruct (stop <? start)%Z eqn:E;
      [apply Z.ltb_lt in E | apply Z.ltb_ge in E].
    + assert (Hneg : (0 < - step)%Z) by lia.
      pose proof (Z.div_mod (start - 1 - stop) (- step) ltac:(lia)) as Hdm.
      pose proof (Z.mod_pos_bound (start - 1 - stop) (- step) Hneg) as Hmb.
      assert (0 <= (start - 1 - stop) / - step)%Z
        by (apply Z.div_pos; lia).
      split.
      * intros [n [Hx Hn]]. exists (Z.of_nat n). repeat split; [lia|lia|nia].
      * intros [i [Hi [Hx Hlt]]]. exists (Z.to_nat i). split; [lia|nia].
    + split.
      * intros [n [_ Hn]]. simpl in Hn. lia.
      * intros [i [Hi [Hx Hlt]]]. nia.
Qed.

(** ** Grouping *)

Section Grouping.
Variables A K : Type.
Variable eqb : K -> K -> bool.
Hypothesis eqb_eq : forall x y : K, eqb x y = true <-> x = y.
Variable key_func : A -> K.

Lemma eqb_same (k : K) : eqb k k = true.
Proof. now apply eqb_eq. Qed.

Lemma eqb_differ (x y : K) : x <> y -> eqb x y = false.
Proof.
  intros H. destruct (eqb x y) eqn:E; [|reflexivity].
  apply eqb_eq in E. contradiction.
Qed.

Lemma key_in_dec (k : K) (l : list K) : {In k l} + {~ In k l}.
Proof.
  apply in_dec. intros x y. destruct (eqb x y) eqn:E.
  - left. now apply eqb_eq.
  - right. intros ->. rewrite eqb_same in E. discriminate.
Qed.

(** *** Facts about dicts *)

Lemma contains_keys (V : Type) (d : dict K V) (key : K) :
  contains eqb d key = true <-> In key (keys d).
Proof.
  induction d as [|[k v] d IH]; simpl.
  - split; [discriminate | contradiction].
  - destruct (eqb k key) eqn:E.
    + apply eqb_eq in E. split; auto.
    + rewrite IH. split; [auto|].
      intros [H|H]; [|exact H].
      subst. rewrite eqb_same in E. discriminate.
Qed.

Lemma setitem_absent (V : Type) (d : dict K V) (key : K) (v : V) :
  ~ In key (keys d) -> setitem eqb d key v = d ++ [(key, v)].
Proof.
  induction d as [|[k w] d IH]; simpl; intros H; [reflexivity|].
  rewrite eqb_differ by (intros ->; apply H; now left).
  rewrite IH by (intros Hin; apply H; now right). reflexivity.
Qed.

Lemma getitem_last (V : Type) (d : dict K V) (key : K) (v : V) :
  ~ In key (keys d) -> getitem eqb (d ++ [(key, v)]) key = Some v.
Proof.
  induction d as [|[k w] d IH]; simpl; intros H.
  - now rewrite eqb_same.
  - rewrite eqb_differ by (intros ->; apply H; now left).
    apply IH. intros Hin. apply H. now right.
Qed.

Lemma setitem_last (V : Type) (d : dict K V) (key : K) (v w : V) :
  ~ In key (keys d) ->
  setitem eqb (d ++ [(key, v)]) key w = d ++ [(key, w)].
Proof.
  induction d as [|[k u] d IH]; simpl; intros H.
  - now rewrite eqb_same.
  - rewrite eqb_differ by (intros ->; apply H; now left).
    rewrite IH by (intros Hin; apply H; now right). reflexivity.
Qed.

Lemma getitem_keyed (V : Type) (f : K -> V) (ks : list K) (key : K) :
  In key ks ->
  getitem eqb (List.map (fun k => (k, f k)) ks) key = Some (f key).
Proof.
  induction ks as [|a ks IH]; simpl; [contradiction|]. intros Hin.
  destruct (eqb a key) eqn:E.
  - apply eqb_eq in E. now subst.
  - apply IH. destruct Hin as [->|Hin]; [|exact Hin].
    rewrite eqb_same in E. discriminate.
Qed.

Lemma setitem_keyed (V : Type) (f : K -> V) (ks : list K) (key : K) (v : V) :
  NoDup ks -> In key ks ->
  setitem eqb (List.map (fun k => (k, f k)) ks) key v
  = List.map (fun k => (k, if eqb k key then v else f k)) ks.
Proof.
  induction ks as [|a ks IH]; simpl; [contradiction|]. intros Hnd Hin.
  inversion Hnd as [|? ? Hnotin Hnd']; subst.
  destruct (eqb a key) eqn:E.
  - apply eqb_eq in E. subst a. f_equal.
    apply map_ext_in. intros k Hk.
    rewrite eqb_differ; [reflexivity|]. intros ->. contradiction.
  - f_equal. apply IH; [exact Hnd'|].
    destruct Hin as [->|Hin]; [|exact Hin].
    rewrite eqb_same in E. discriminate.
Qed.

Lemma keys_keyed (V : Type) (f : K -> V) (ks : list K) :
  keys (List.map (fun k => (k, f k)) ks) = ks.
Proof. unfold keys. rewrite map_map. simpl. apply map_id. Qed.

(** *** First occurrences *)

Lemma first_occurrences_in (l : list K) (k : K) :
  In k (first_occurrences eqb l) <-> In k l.
Proof.
  induction l as [|a l IH]; simpl; [tauto|].
  rewrite filter_In, IH. split.
  - intros [H|[H _]]; auto.
  - intros [H|H]; [now left|].
    destruct (eqb a k) eqn:E.
    + left. now apply eqb_eq.
    + right. now split.
Qed.

Lemma first_occurrences_nodup (l : list K) : NoDup (first_occurrences eqb l).
Proof.
  induction l as [|a l IH]; simpl; constructor.
  - rewrite filter_In. intros [_ H]. rewrite eqb_same in H. discriminate.
  - now apply NoDup_filter.
Qed.

Lemma first_occurrences_snoc (l : list K) (k : K) :
  (In k l -> first_occurrences eqb (l ++ [k]) = first_occurrences eqb l)
  /\ (~ In k l ->
      first_occurrences eqb (l ++ [k]) = first_occurrences eqb l ++ [k]).
Proof.
  induction l as [|a l [IH1 IH2]]; simpl.
  - split; [contradiction | reflexivity].
  - split.
    + intros Hin. f_equal.
      destruct (key_in_dec k l) as [Hl|Hl].
      * now rewrite IH1.
      * rewrite IH2 by exact Hl. rewrite filter_app. simpl.
        destruct Hin as [->|Hin]; [|contradiction].
        rewrite eqb_same. simpl. apply app_nil_r.
    + intros Hnot. f_equal.
      rewrite IH2 by (intros Hin; apply Hnot; now right).
      rewrite filter_app. simpl.
      rewrite eqb_differ by (intros ->; apply Hnot; now left).
      reflexivity.
Qed.

(** *** The loop of [group_by] *)

Lemma filter_key_absent (p : list A) (key : K) :
  ~ In key (List.map key_func p) ->
  List.filter (fun y => eqb (key_func y) key) p = [].
Proof.
  induction p as [|y p IH]; simpl; intros H; [reflexivity|].
  rewrite eqb_differ by (intros E; apply H; now left).
  apply IH. intros Hin. apply H. now right.
Qed.

Lemma group_by_body_groups (hash : K -> option Z) (p : list A) (x : A) :
  hash (key_func x) <> None ->
  LazyCollection.group_by_body hash eqb key_func (groups_of eqb key_func p) x
  = Ok (groups_of eqb key_func (p ++ [x])).
Proof.
  intros Hx.
  unfold LazyCollection.group_by_body, groups_of.
  destruct (hash (key_func x)) as [h|]; [clear Hx | contradiction].
  rewrite map_app. change (List.map key_func [x]) with [key_func x].
  set (key := key_func x).
  set (ks := first_occurrences eqb (List.map key_func p)).
  destruct (first_occurrences_snoc (List.map key_func p) key) as [Hin Hnot].
  destruct (key_in_dec key (List.map key_func p)) as [H|H].
  - rewrite (Hin H). fold ks.
    assert (Hks : In key ks) by (apply first_occurrences_in; exact H).
    assert (C : forall f : K -> list A,
               contains eqb (List.map (fun k => (k, f k)) ks) key = true)
      by (intros f; apply contains_keys; now rewrite keys_keyed).
    rewrite C, getitem_keyed by exact Hks.
    f_equal.
    rewrite setitem_keyed; [|apply first_occurrences_nodup | exact Hks].
    apply map_ext_in. intros k Hk. f_equal.
    rewrite filter_app. simpl. fold key.
    destruct (eqb k key) eqn:E.
    + apply eqb_eq in E. subst k. now rewrite eqb_same.
    + rewrite eqb_differ; [now rewrite app_nil_r|].
      intros E'. rewrite E', eqb_same in E. discriminate.
  - rewrite (Hnot H). fold ks.
    assert (Hks : ~ In key ks)
      by (intros Hk; apply H; apply first_occurrences_in; exact Hk).
    assert (Hkeys : forall f : K -> list A,
               ~ In key (keys (List.map (fun k => (k, f k)) ks)))
      by (intros f; now rewrite keys_keyed).
    assert (C : forall f : K -> list A,
               contains eqb (List.map (fun k => (k, f k)) ks) key = false).
    { intros f.
      destruct (contains eqb _ key) eqn:C; [|reflexivity].
      apply contains_keys in C. now apply Hkeys in C. }
    rewrite C.
    rewrite setitem_absent by apply Hkeys.
    rewrite getitem_last by apply Hkeys.
    rewrite setitem_last by apply Hkeys.
    f_equal. rewrite map_app. simpl. f_equal.
    + apply map_ext_in. intros k Hk. f_equal.
      rewrite filter_app. simpl. fold key.
      rewrite eqb_differ; [now rewrite app_nil_r|].
      intros E. apply Hks. now rewrite E.
    + do 2 f_equal. rewrite filter_app. simpl. fold key.
      rewrite eqb_same. now rewrite filter_key_absent.
Qed.

Lemma group_by_loop_groups (hash : K -> option Z) (S : Type)
      (nxt : next_fn A S) (k : nat) :
  forall (l p : list A) (s : S) (fuel : nat),
  produces nxt k s l -> k + length l + 1 <= fuel ->
  (forall x, In x l -> hash (key_func x) <> None) ->
  exists s',
    LazyCollection.group_by_loop hash eqb nxt key_func fuel s
                                 (groups_of eqb key_func p)
    = Some (Ok (groups_of eqb key_func (p ++ l)), s').
Proof.
  induction l as [|x l IH]; intros p s fuel H Hf Hh; simpl in H.
  - destruct H as [s' H]. exists s'.
    destruct fuel as [|f]; [simpl in Hf; lia|].
    simpl. rewrite H by (simpl in Hf; lia). now rewrite app_nil_r.
  - destruct H as [s1 [H Hl]].
    destruct fuel as [|f]; [simpl in Hf; lia|].
    cbn [LazyCollection.group_by_loop]. rewrite H by (simpl in Hf; lia).
    rewrite group_by_body_groups by (apply Hh; now left).
    destruct (IH (p ++ [x]) s1 f Hl) as [s' E]; [simpl in Hf; lia | |].
    { intros y Hy. apply Hh. now right. }
    exists s'. rewrite E. now rewrite <- app_assoc.
Qed.

(** The first item with an unhashable key stops the loop with TypeError. *)
Lemma group_by_loop_unhashable (hash : K -> option Z) (S : Type)
      (nxt : next_fn A S) (k : nat) :
  forall (pre p : list A) (x : A) (post : list A) (s : S) (fuel : nat),
  produces nxt k s (pre ++ x :: post) -> k + length pre + 1 <= fuel ->
  (forall y, In y pre -> hash (key_func y) <> None) ->
  hash (key_func x) = None ->
  exists s',
    LazyCollection.group_by_loop hash eqb nxt key_func fuel s
                                 (groups_of eqb key_func p)
    = Some (Err unhashable, s').
Proof.
  induction pre as [|y pre IH]; intros p x post s fuel H Hf Hh Hx;
    simpl in H; destruct H as [s1 [H Hl]];
    (destruct fuel as [|f]; [simpl in Hf; lia|]);
    cbn [LazyCollection.group_by_loop]; rewrite H by (simpl in Hf; lia).
  - exists s1. unfold LazyCollection.group_by_body. now rewrite Hx.
  - rewrite group_by_body_groups by (apply Hh; now left).
    apply (IH (p ++ [y]) x post s1 f Hl); [simpl in Hf; lia | | exact Hx].
    intros z Hz. apply Hh. now right.
Qed.

(** *** The groups are a rearrangement of the items *)

Lemma setitem_append_permutation (d : dict K (list A)) (key : K)
      (v : list A) (x : A) :
  getitem eqb d key = Some v ->
  Permutation (concat (values (setitem eqb d key (v ++ [x]))))
              (concat (values d) ++ [x]).
Proof.
  unfold values.
  induction d as [|[k w] d IH]; simpl; [discriminate|].
  destruct (eqb k key); intros H; simpl.
  - inversion H; subst. rewrite <- !app_assoc.
    apply Permutation_app_head, Permutation_app_comm.
  - rewrite <- app_assoc. apply Permutation_app_head, IH, H.
Qed.

Lemma group_by_body_permutation (hash : K -> option Z)
      (d d' : dict K (list A)) (x : A) :
  LazyCollection.group_by_body hash eqb key_func d x = Ok d' ->
  Permutation (concat (values d')) (concat (values d) ++ [x]).
Proof.
  unfold LazyCollection.group_by_body.
  destruct (hash (key_func x)) as [h|]; [|discriminate].
  destruct (contains eqb d (key_func x)) eqn:C.
  - destruct (getitem eqb d (key_func x)) as [v|] eqn:G; [|discriminate].
    intros H. inversion H; subst.
    now apply setitem_append_permutation.
  - assert (Hk : ~ In (key_func x) (keys d)).
    { intros Hin. apply contains_keys in Hin. rewrite Hin in C. discriminate. }
    rewrite setitem_absent, getitem_last by exact Hk.
    intros H. inversion H; subst.
    rewrite setitem_last by exact Hk.
    unfold values. rewrite map_app, concat_app. simpl.
    reflexivity.
Qed.

End Grouping.

Lemma groups_of_permutation (A K : Type) (eqb : K -> K -> bool)
      (key_func : A -> K) :
  (forall x y : K, eqb x y = true <-> x = y) ->
  forall l : list A,
  Permutation (concat (values (groups_of eqb key_func l))) l.
Proof.
  intros eqb_eq.
  induction l as [|x p IH] using rev_ind; [reflexivity|].
  pose proof (@group_by_body_groups A K eqb eqb_eq key_func
                (fun _ => Some 0%Z) p x ltac:(discriminate)) as G.
  apply group_by_body_permutation in G; [|exact eqb_eq].
  rewrite G. now apply Permutation_app_tail.
Qed.

(** *** When the groups, concatenated, are the source again *)

Lemma filter_filter_both (A : Type) (f g : A -> bool) (l : list A) :
  List.filter f (List.filter g l) = List.filter (fun y => g y && f y) l.
Proof.
  induction l as [|x l IH]; simpl; [reflexivity|].
  destruct (g x); simpl; [destruct (f x)|]; now rewrite IH.
Qed.

Lemma filter_all_kept (A : Type) (f : A -> bool) (l : list A) :
  (forall x, In x l -> f x = true) -> List.filter f l = l.
Proof.
  induction l as [|x l IH]; intros H; simpl; [reflexivity|].
  rewrite (H x) by now left.
  f_equal. apply IH. intros y Hy. apply H. now right.
Qed.

Section Adjacency.
Variables A K : Type.
Variable eqb : K -> K -> bool.
Hypothesis eqb_eq : forall x y : K, eqb x y = true <-> x = y.
Variable key_func : A -> K.

(** Groups with pairwise different keys, one after the other, have equal
    keys adjacent. *)
Lemma grouped_adjacent (g : K -> list A) :
  (forall k x, In x (g k) -> key_func x = k) ->
  forall ks : list K, NoDup ks ->
  keys_adjacent key_func (concat (List.map g ks)).
Proof.
  intros Hg. induction ks as [|k0 ks IH]; intros Hnd.
  - intros i j m x z y _ _ Hx. destruct i; discriminate.
  - inversion Hnd as [|? ? Hnotin Hnd']; subst.
    cbn [List.map concat].
    intros i j m x z y Hij Hjm Hx Hz Hy Hxy.
    destruct (Nat.lt_ge_cases m (length (g k0))) as [Hm|Hm].
    + rewrite nth_error_app1 in Hx, Hz by lia.
      apply nth_error_In in Hx, Hz.
      now rewrite (Hg _ _ Hx), (Hg _ _ Hz).
    + rewrite nth_error_app2 in Hy by lia.
      destruct (Nat.lt_ge_cases i (length (g k0))) as [Hi|Hi].
      * rewrite nth_error_app1 in Hx by lia.
        apply nth_error_In in Hx, Hy.
        apply in_concat in Hy. destruct Hy as [gy [Hgy Hy]].
        apply in_map_iff in Hgy. destruct Hgy as [k1 [E Hk1]]. subst gy.
        exfalso. apply Hnotin.
        rewrite <- (Hg _ _ Hx), Hxy, (Hg _ _ Hy). exact Hk1.
      * rewrite nth_error_app2 in Hx, Hz by lia.
        apply (IH Hnd' (i - length (g k0)) (j - length (g k0))
                  (m - length (g k0)) x z y); solve [assumption | lia].
Qed.

Lemma groups_of_adjacent (l : list A) :
  keys_adjacent key_func (concat (values (groups_of eqb key_func l))).
Proof.
  unfold groups_of, values. rewrite map_map. cbn [snd].
  apply grouped_adjacent.
  - intros k x Hx. apply filter_In in Hx. now apply eqb_eq.
  - now apply first_occurrences_nodup.
Qed.

Lemma keys_adjacent_tail (x : A) (l : list A) :
  keys_adjacent key_func (x :: l) -> keys_adjacent key_func l.
Proof.
  intros H i j m a z b Hij Hjm Ha Hz Hb.
  apply (H (Datatypes.S i) (Datatypes.S j) (Datatypes.S m));
    solve [assumption | lia].
Qed.

Lemma groups_concat_adjacent :
  forall l : list A,
  keys_adjacent key_func l ->
  concat (values (groups_of eqb key_func l)) = l.
Proof.
  assert (Same : forall k : K, eqb k k = true) by (intros k; now apply eqb_eq).
  induction l as [|x l IH]; intros Adj; [reflexivity|].
  specialize (IH (keys_adjacent_tail Adj)).
  unfold groups_of, values in *. rewrite map_map in *. cbn [snd] in *.
  cbn [List.map first_occurrences concat List.filter].
  rewrite Same. cbn [app]. f_equal.
  set (kx := key_func x) in *.
  set (ks := first_occurrences eqb (List.map key_func l)) in *.
  rewrite (map_ext_in
             (fun k => if eqb kx k
                       then x :: List.filter (fun y => eqb (key_func y) k) l
                       else List.filter (fun y => eqb (key_func y) k) l)
             (fun k => List.filter (fun y => eqb (key_func y) k) l)).
  2:{ intros k Hk. apply filter_In in Hk. destruct Hk as [_ Hk].
      now destruct (eqb kx k). }
  destruct (in_dec (fun a b : K =>
                      match bool_dec (eqb a b) true with
                      | left E => left (proj1 (eqb_eq a b) E)
                      | right E => right (fun H => E (proj2 (eqb_eq a b) H))
                      end)
                   kx (List.map key_func l)) as [Hin|Hnot].
  - destruct l as [|y l']; [contradiction|].
    assert (Hy : key_func y = kx).
    { apply in_map_iff in Hin. destruct Hin as [z [Ez Hz]].
      apply In_nth_error in Hz. destruct Hz as [m Hm].
      apply (Adj 0 1 (Datatypes.S m) x y z); try reflexivity; try lia.
      + exact Hm.
      + now rewrite Ez. }
    etransitivity; [|exact IH]. clear IH. subst ks.
    remember (fun k : K =>
                List.filter (fun y0 => eqb (key_func y0) k) (y :: l')) as G.
    cbn [List.map first_occurrences]. rewrite Hy.
    cbn [List.filter]. rewrite Same. cbn [negb List.map concat]. f_equal.
    + subst G. reflexivity.
    + rewrite filter_filter_both. do 2 f_equal.
      apply filter_ext. intros a. now destruct (negb (eqb kx a)).
  - rewrite (@filter_key_absent A K eqb eqb_eq key_func l kx Hnot).
    rewrite filter_all_kept; [exact IH|].
    intros k Hk. subst ks.
    apply first_occurrences_in in Hk; [|exact eqb_eq].
    destruct (eqb kx k) eqn:E; [|reflexivity].
    apply eqb_eq in E. subst k. contradiction.
Qed.
End Adjacency.

(** ** The pipelines of [examples.py] *)

Example example_lazy_evaluation :
  exists c : LazyCollection.t Z,
    LazyCollection.range 1000000 None 1 = Ok c
    /\ LazyCollection.value
         (LazyCollection.collect 100
            (LazyCollection.take
               (LazyCollection.map
                  (LazyCollection.filter c (fun x => x mod 2 =? 0)%Z)
                  (fun x => x * 2)%Z)
               10))
       = Some (Ok [0; 4; 8; 12; 16; 20; 24; 28; 32; 36]%Z).
Proof. eexists. split; [reflexivity|]. vm_compute. reflexivity. Qed.

Example example_chunks :
  exists c : LazyCollection.t Z,
    LazyCollection.range 10 None 1 = Ok c
    /\ LazyCollection.value
         (LazyCollection.collect 20 (LazyCollection.chunk c 3))
       = Some (Ok [[0; 1; 2]; [3; 4; 5]; [6; 7; 8]; [9]]%Z).
Proof. eexists. split; [reflexivity|]. vm_compute. reflexivity. Qed.

Example example_count :
  exists c : LazyCollection.t Z,
    LazyCollection.range 100 None 1 = Ok c
    /\ LazyCollection.value
         (LazyCollection.count 200
            (LazyCollection.filter c (fun x => x mod 3 =? 0)%Z))
       = Some (Ok 34%Z).
Proof. eexists. split; [reflexivity|]. vm_compute. reflexivity. Qed.

Example example_sum_of_squares :
  exists c : LazyCollection.t Z,
    LazyCollection.range 5 None 1 = Ok c
    /\ LazyCollection.value
         (LazyCollection.reduce 10 c (fun acc x => acc + x * x)%Z 0%Z)
       = Some (Ok 30%Z).
Proof. eexists. split; [reflexivity|]. vm_compute. reflexivity. Qed.

(** [take(3)] over a counter: three items out, four items drawn. *)
Example example_take_three_draws_four :
  list_ (gen_next (LazyCollection.take_generator (counted count_iterator) 3))
        10 (Gen false ((0, 0), 0))
  = Some (Ok [0; 1; 2]%Z, Gen true ((4, 4), 4)).
Proof. reflexivity. Qed.

(** [take(0)] over a counter: nothing out, one item drawn. *)
Example example_take_zero_draws_one :
  list_ (gen_next (LazyCollection.take_generator (counted count_iterator) 0))
        10 (Gen false ((0, 0), 0))
  = Some (Ok [], Gen true ((1, 1), 1)).
Proof. reflexivity. Qed.

(** ** The claims *)

Import LazyCollection.

(** C3. For every finite sequence [l] and all non-negative [a] and [b],
    [skip(a).take(b)] yields the elements of [l] at the zero-based positions
    [a, a+b), clipped to the length of [l], in order: collecting it returns
    the first [b] items of what is left after dropping [a] items, and the
    item at position [j] of the result is the item at position [a + j] of
    [l] when [j < b], and there is none otherwise. *)
Theorem skip_take_positions (A : Type) (l : list A) (a b : Z) (fuel : nat) :
  (0 <= a)%Z -> (0 <= b)%Z -> 2 * length l + 2 <= fuel ->
  value (collect fuel (take (skip (of_list l) a) b))
  = Some (Ok (firstn (Z.to_nat b) (skipn (Z.to_nat a) l)))
  /\ forall j : nat,
      nth_error (firstn (Z.to_nat b) (skipn (Z.to_nat a) l)) j
      = if j <? Z.to_nat b then nth_error l (Z.to_nat a + j) else None.
Proof.
  intros _ _ Hf. split.
  - apply collect_denotes with (k := 0 + length l + 1).
    + apply take_denotes, skip_denotes, of_list_denotes.
    + rewrite length_firstn, length_skipn. lia.
  - intros j. rewrite nth_error_firstn.
    destruct (j <? Z.to_nat b); [apply nth_error_skipn | reflexivity].
Qed.

Lemma skip_take_positions_witness :
  value (collect 12 (take (skip (of_list [10; 11; 12; 13; 14]%Z) 1) 3))
  = Some (Ok [11; 12; 13]%Z).
Proof.
  apply (proj1 (@skip_take_positions Z [10; 11; 12; 13; 14]%Z 1 3 12
                  ltac:(lia) ltac:(lia) ltac:(simpl; lia))).
Defined.

(** C9. For every sequence and every [n <= 0], [skip(n)] yields every
    upstream element unchanged and in order and raises no error of its own:
    each call of [next] on the skipping generator makes one call upstream
    and passes its outcome on, because [index >= n] holds for every index;
    so collecting [skip(n)] over a list returns the list. *)
Theorem skip_nonpositive_keeps_all (A S : Type) (nxt : next_fn A S) (n : Z) :
  (n <= 0)%Z ->
  (forall (fuel : nat) (s : S) (i : nat),
      skip_generator nxt n (Datatypes.S fuel) (s, i)
      = match nxt fuel s with
        | None => None
        | Some (Yield item s') => Some (Yield item (s', Datatypes.S i))
        | Some (StopIteration s') => Some (StopIteration (s', i))
        | Some (Raise e s') => Some (Raise e (s', i))
        end)
  /\ (forall (l : list A) (fuel : nat), 2 * length l + 2 <= fuel ->
        value (collect fuel (skip (of_list l) n)) = Some (Ok l)).
Proof.
  intros Hn. split.
  - intros fuel s i. simpl.
    destruct (nxt fuel s) as [[item s'|s'|e s']|]; try reflexivity.
    replace (Z.of_nat i >=? n)%Z with true; [reflexivity|].
    symmetry. rewrite Z.geb_leb. apply Z.leb_le. lia.
  - intros l fuel Hf.
    apply collect_denotes with (k := 0 + length l + 1); [|lia].
    pose proof (@skip_denotes A (of_list l) n 0 l (of_list_denotes l)) as H.
    replace (Z.to_nat n) with 0 in H by lia. exact H.
Qed.

Lemma skip_nonpositive_keeps_all_witness :
  value (collect 8 (skip (of_list [7; 8; 9]%Z) (-2))) = Some (Ok [7; 8; 9]%Z).
Proof.
  apply (proj2 (@skip_nonpositive_keeps_all Z nat (list_iterator [7; 8; 9]%Z)
                  (-2) ltac:(lia)) [7; 8; 9]%Z 8 ltac:(simpl; lia)).
Defined.

(** C5. For every sequence, every page [>= 1] and every [per_page],
    [paginate(page, per_page)] is [skip((page-1)*per_page).take(per_page)];
    over a list it collects to the [per_page] items that follow the first
    [(page-1)*per_page] ones; a page beyond the length of the list is empty,
    not an error; and [range(100).paginate(3, 10)] collects to 20..29. *)
Theorem paginate_is_skip_take (A : Type) (page per_page : Z) :
  (1 <= page)%Z ->
  (forall c : t A,
      paginate c page per_page
      = take (skip c ((page - 1) * per_page)) per_page)
  /\ (forall (l : list A) (fuel : nat), 2 * length l + 2 <= fuel ->
        value (collect fuel (paginate (of_list l) page per_page))
        = value (collect fuel
                   (take (skip (of_list l) ((page - 1) * per_page)) per_page))
        /\ value (collect fuel (paginate (of_list l) page per_page))
           = Some (Ok (firstn (Z.to_nat per_page)
                         (skipn (Z.to_nat ((page - 1) * per_page)) l)))
        /\ ((Z.of_nat (length l) <= (page - 1) * per_page)%Z ->
            value (collect fuel (paginate (of_list l) page per_page))
            = Some (Ok [])))
  /\ (exists c : t Z,
        range 100 None 1 = Ok c
        /\ value (collect 200 (paginate c 3 10))
           = Some (Ok [20; 21; 22; 23; 24; 25; 26; 27; 28; 29]%Z)).
Proof.
  intros _. split; [reflexivity|]. split.
  - intros l fuel Hf.
    assert (E : value (collect fuel (paginate (of_list l) page per_page))
                = Some (Ok (firstn (Z.to_nat per_page)
                              (skipn (Z.to_nat ((page - 1) * per_page)) l)))).
    { unfold paginate.
      apply collect_denotes with (k := 0 + length l + 1).
      - apply take_denotes, skip_denotes, of_list_denotes.
      - rewrite length_firstn, length_skipn. lia. }
    split; [reflexivity|]. split; [exact E|].
    intros Hl. rewrite E.
    rewrite skipn_all2 by lia. now rewrite firstn_nil.
  - eexists. split; [reflexivity|]. vm_compute. reflexivity.
Qed.

Lemma paginate_is_skip_take_witness :
  value (collect 12 (paginate (of_list [1; 2; 3; 4; 5]%Z) 2 2))
  = Some (Ok [3; 4]%Z).
Proof.
  apply (proj1 (proj2 (proj1 (proj2 (@paginate_is_skip_take Z 2 2 ltac:(lia)))
                         [1; 2; 3; 4; 5]%Z 12 ltac:(simpl; lia)))).
Defined.

(** C2 (as the code has it). [chunk] does not reject a zero or negative
    size: for every list and every [size <= 0], evaluating the chunked
    sequence raises no error; it yields the whole source as one single group,
    and no group at all when the source is empty. *)
Theorem chunk_nonpositive_one_group (A : Type) (l : list A) (size : Z)
        (fuel : nat) :
  (size <= 0)%Z -> length l + 3 <= fuel ->
  value (collect fuel (chunk (of_list l) size))
  = Some (Ok (match l with [] => [] | _ :: _ => [l] end)).
Proof. apply chunk_nonpositive_collect. Qed.

Lemma chunk_nonpositive_one_group_witness :
  value (collect 6 (chunk (of_list [1; 2; 3]%Z) (-1)))
  = Some (Ok [[1; 2; 3]%Z]).
Proof.
  apply (@chunk_nonpositive_one_group Z [1; 2; 3]%Z (-1) 6
           ltac:(lia) ltac:(simpl; lia)).
Defined.

(** C2, refuted as stated: evaluating [chunk(0)] over [1, 2, 3] never
    raises an error, whatever the fuel; it returns the single group
    [[1, 2, 3]]. *)
Lemma chunk_zero_raises_nothing :
  ~ (exists (fuel : nat) (e : exn),
        value (collect fuel (chunk (of_list [1; 2; 3]%Z) 0)) = Some (Err e)).
Proof.
  intros [fuel [e H]].
  destruct (Nat.le_gt_cases 6 fuel) as [Hf|Hf].
  - rewrite (@chunk_nonpositive_collect Z [1; 2; 3]%Z 0 fuel) in H;
      [discriminate | lia | simpl; lia].
  - do 6 (destruct fuel as [|fuel]; [vm_compute in H; discriminate|]). lia.
Qed.

(** C7. On an empty sequence the terminal operators return defined values:
    [reduce(reducer, initial)] returns [initial] for every reducer and every
    initial value, [all(predicate)] returns true for every predicate, and
    [any()] with the default predicate returns false. *)
Theorem terminal_operators_on_empty (A : Type) (c : t A) :
  empty c ->
  exists k : nat, forall fuel : nat, k <= fuel ->
    (forall (O : Type) (reducer : O -> A -> O) (initial : O),
        value (reduce fuel c reducer initial) = Some (Ok initial))
    /\ (forall predicate : A -> bool,
          value (all fuel c predicate) = Some (Ok true))
    /\ value (any fuel c None) = Some (Ok false).
Proof.
  intros [k [s' H]]. exists (Datatypes.S k). intros fuel Hf.
  destruct fuel as [|f]; [lia|].
  assert (E : next c f (__iter__ c) = Some (StopIteration s')) by (apply H; lia).
  repeat split.
  - intros O reducer initial. unfold reduce. simpl. now rewrite E.
  - intros predicate. unfold all, gen_next, map_genexpr. simpl. now rewrite E.
  - unfold any, gen_next, map_genexpr. simpl. now rewrite E.
Qed.

Lemma terminal_operators_on_empty_witness :
  exists k : nat, forall fuel : nat, k <= fuel ->
    value (reduce fuel (of_list (@nil Z)) Z.add 5%Z) = Some (Ok 5%Z).
Proof.
  assert (E : empty (of_list (@nil Z))).
  { exists 0, 0. intros fuel _. reflexivity. }
  destruct (@terminal_operators_on_empty Z (of_list []) E) as [k H].
  exists k. intros fuel Hf. apply (proj1 (H fuel Hf)).
Defined.

(** C8 (as the code has it). An instance re-iterates as the object it wraps
    does.  One that wraps an iterable container (a list, a range) is left
    unchanged by a full draw, so iterating it again restarts.  Every
    operator wraps a generator it has just created, and a generator is
    single-pass: once [map], [filter], [take], [skip] or [chunk] over any
    upstream, restartable or not, has been fully drawn, iterating the same
    instance again yields nothing. *)
Theorem restartable_only_when_wrapping_a_container :
  (forall (A : Type) (c : t A) (fuel : nat) (r : result (list A)) (c' : t A),
      kind c = Iterable -> collect fuel c = Some (r, c') -> c' = c)
  /\ (forall (A O : Type) (c : t A) (transform : A -> O) (fuel : nat)
             (l : list O) (m : t O),
         collect fuel (map c transform) = Some (Ok l, m) ->
         forall fuel', value (collect (Datatypes.S fuel') m) = Some (Ok []))
  /\ (forall (A : Type) (c : t A) (predicate : A -> bool) (fuel : nat)
             (l : list A) (m : t A),
         collect fuel (filter c predicate) = Some (Ok l, m) ->
         forall fuel', value (collect (Datatypes.S fuel') m) = Some (Ok []))
  /\ (forall (A : Type) (c : t A) (n : Z) (fuel : nat) (l : list A) (m : t A),
         collect fuel (take c n) = Some (Ok l, m)
         \/ collect fuel (skip c n) = Some (Ok l, m) ->
         forall fuel', value (collect (Datatypes.S fuel') m) = Some (Ok []))
  /\ (forall (A : Type) (c : t A) (size : Z) (fuel : nat) (l : list (list A))
             (m : t (list A)),
         collect fuel (chunk c size) = Some (Ok l, m) ->
         forall fuel', value (collect (Datatypes.S fuel') m) = Some (Ok [])).
Proof.
  split.
  { intros A c fuel r c' Hk. unfold collect, consumed, advance.
    destruct (list_ (next c) fuel (__iter__ c)) as [[v s']|]; [|discriminate].
    rewrite Hk. intros H. now inversion H. }
  split; [|split; [|split]].
  - intros A O c transform fuel l m. apply collect_generator_again.
  - intros A c predicate fuel l m. apply collect_generator_again.
  - intros A c n fuel l m [H|H]; revert H; apply collect_generator_again.
  - intros A c size fuel l m. apply collect_generator_again.
Qed.

Lemma restartable_only_when_wrapping_a_container_witness :
  exists m : t Z,
    collect 10 (map (of_list [1; 2; 3]%Z) (fun x => x * 2)%Z)
    = Some (Ok [2; 4; 6]%Z, m)
    /\ value (collect 1 m) = Some (Ok []).
Proof.
  exists (LazyCollection Generator (Gen true 3)
            (gen_next (map_genexpr (list_iterator [1; 2; 3]%Z)
                                   (fun x => x * 2)%Z))).
  split.
  - reflexivity.
  - apply (proj1 (proj2 restartable_only_when_wrapping_a_container)
             Z Z (of_list [1; 2; 3]%Z) (fun x => x * 2)%Z 10 [2; 4; 6]%Z
             _ eq_refl 0).
Defined.

(** C8, refuted as stated: restartability is not inherited by an
    operator-produced sequence.  [range(3)] is restartable, yet [map] over it
    is not: the first full draw returns [0, 2, 4], the second one nothing. *)
Lemma map_over_range_is_not_restartable :
  ~ (forall (c : t Z) (transform : Z -> Z) (fuel : nat) (l : list Z) (m : t Z),
        kind c = Iterable ->
        collect fuel (map c transform) = Some (Ok l, m) ->
        value (collect fuel m) = Some (Ok l)).
Proof.
  intros H.
  specialize (H (LazyCollection Iterable 0 (range_iterator 0 3 1))
                (fun x => x * 2)%Z 10 [0; 2; 4]%Z
                (LazyCollection Generator (Gen true 3)
                   (gen_next (map_genexpr (range_iterator 0 3 1)
                                          (fun x => x * 2)%Z)))
                eq_refl eq_refl).
  vm_compute in H. discriminate.
Qed.

(** C1 (the code at the failing input, for every [n]). Over an unbounded
    counter instrumented to count the items drawn from it, a full draw of
    [take(n)] hands out the first [max(n, 0)] items, and leaves the source
    having handed out [max(n, 0) + 1] items: one item beyond the n-th is
    pulled and dropped, also when [n <= 0]. *)
Theorem take_draws_one_item_past_n (n : Z) (extra : nat) :
  collect (Z.to_nat n + 1 + extra)
          (take (of_iterator (counted count_iterator) (0, 0)) n)
  = Some (Ok (List.map Z.of_nat (seq 0 (Z.to_nat n))),
          LazyCollection Generator
            (Gen true ((Z.to_nat n + 1, Z.to_nat n + 1), Z.to_nat n + 1))
            (gen_next (take_generator (counted count_iterator) n))).
Proof.
  unfold collect, consumed, list_, take, of_generator, of_iterator, __iter__,
    advance, count_iterator.
  cbn [next _source kind state].
  rewrite (@take_counted_drain Z (fun i => Some (Z.of_nat i)) n Z.of_nat
             (Z.to_nat n) 0 0 0 [] (Z.to_nat n + 1 + extra));
    [reflexivity | lia | reflexivity | lia].
Qed.

(** C4. [first()] returns the first element, or [None] on an empty
    sequence, and draws exactly one item (none when the source is empty);
    on a filtered source, finite or not, it draws up to the first item that
    satisfies the predicate and nothing beyond it; and
    [range(-1000000, 1000000).filter(x > 0).first()] returns 1 after
    1000002 of the 2000000 items have been drawn. *)
Theorem first_stops_at_the_first_match :
  (forall (A : Type) (l : list A) (fuel : nat),
      first fuel (of_iterator (counted (list_iterator l)) (0, 0))
      = Some (Ok (hd_error l),
              of_iterator (counted (list_iterator l))
                          (Nat.min 1 (length l), Nat.min 1 (length l))))
  /\ (forall (A : Type) (item_at : nat -> option A) (predicate : A -> bool)
             (d : nat) (x : A) (fuel : nat),
         (forall j, j < d ->
            exists y, item_at j = Some y /\ predicate y = false) ->
         item_at d = Some x -> predicate x = true -> d + 1 <= fuel ->
         first fuel (filter (of_iterator (counted (seq_next item_at)) (0, 0))
                            predicate)
         = Some (Ok (Some x),
                 of_generator
                   (filter_genexpr (counted (seq_next item_at)) predicate)
                   (d + 1, d + 1)))
  /\ (forall extra : nat,
         first (Z.to_nat 1000002 + extra)
               (filter (of_iterator
                          (counted (range_iterator (-1000000) 1000000 1))
                          (0, 0))
                       (fun x => 0 <? x)%Z)
         = Some (Ok (Some 1%Z),
                 of_generator
                   (filter_genexpr
                      (counted (range_iterator (-1000000) 1000000 1))
                      (fun x => 0 <? x)%Z)
                   (Z.to_nat 1000002, Z.to_nat 1000002)))
  /\ (exists c : t Z,
         range (-1000000) (Some 1000000%Z) 1 = Ok c
         /\ forall extra : nat,
             value (first (Z.to_nat 1000002 + extra)
                          (filter c (fun x => 0 <? x)%Z))
             = Some (Ok (Some 1%Z))).
Proof.
  assert (Hgen : forall (A : Type) (item_at : nat -> option A)
                        (predicate : A -> bool) (d : nat) (x : A) (fuel : nat),
             (forall j, j < d ->
                exists y, item_at j = Some y /\ predicate y = false) ->
             item_at d = Some x -> predicate x = true -> d + 1 <= fuel ->
             filter_genexpr (counted (seq_next item_at)) predicate fuel (0, 0)
             = Some (Yield x (d + 1, d + 1))).
  { intros A item_at predicate d x fuel Hskip Hx Hp Hf.
    apply (@filter_counted_first A item_at predicate x d 0 0 fuel);
      assumption. }
  assert (Hrange : forall extra : nat,
             filter_genexpr (counted (range_iterator (-1000000) 1000000 1))
                            (fun x => 0 <? x)%Z
                            (Z.to_nat 1000002 + extra) (0, 0)
             = Some (Yield 1%Z (Z.to_nat 1000002, Z.to_nat 1000002))).
  { intros extra. unfold range_iterator.
    replace (Z.to_nat 1000002) with (Z.to_nat 1000001 + 1) at 2 3 by lia.
    apply Hgen.
    - intros j Hj. exists (-1000000 + Z.of_nat j)%Z. split.
      + apply range_at_unit_step. lia.
      + apply Z.ltb_ge. lia.
    - rewrite range_at_unit_step by lia.
      replace (-1000000 + Z.of_nat (Z.to_nat 1000001))%Z with 1%Z by lia.
      reflexivity.
    - reflexivity.
    - lia. }
  split; [|split; [|split]].
  - intros A l fuel. destruct l; reflexivity.
  - intros A item_at predicate d x fuel Hskip Hx Hp Hf.
    unfold first, filter, of_generator, of_iterator, __iter__, advance, gen_next.
    cbn [next _source kind state finished frame].
    now rewrite (Hgen A item_at predicate d x fuel Hskip Hx Hp Hf).
  - intros extra.
    unfold first, filter, of_generator, of_iterator, __iter__, advance, gen_next.
    cbn [next _source kind state finished frame].
    now rewrite Hrange.
  - eexists. split; [reflexivity|]. intros extra.
    unfold first, filter, of_generator, __iter__, advance, gen_next, value.
    cbn [next _source kind state finished frame].
    rewrite (filter_counted_erase (range_iterator (-1000000) 1000000 1)
               (fun x => 0 <? x)%Z (Z.to_nat 1000002 + extra) 0 0).
    now rewrite Hrange.
Qed.

Lemma first_stops_at_the_first_match_witness :
  first 3 (filter (of_iterator (counted (list_iterator [4; 6; 7; 8]%Z)) (0, 0))
                  Z.odd)
  = Some (Ok (Some 7%Z),
          of_generator
            (filter_genexpr (counted (list_iterator [4; 6; 7; 8]%Z)) Z.odd)
            (3, 3)).
Proof.
  apply (proj1 (proj2 first_stops_at_the_first_match)
           Z (nth_error [4; 6; 7; 8]%Z) Z.odd 2 7%Z 3).
  - intros j Hj.
    destruct j as [|[|j]]; [exists 4%Z | exists 6%Z | lia]; split; reflexivity.
  - reflexivity.
  - reflexivity.
  - lia.
Defined.

(** C10. With [stop] omitted, [range(start, step=step)] is the builtin
    [range(0, start, step)]: it collects to the standard numeric range from
    0 towards [start] (the numbers [i * step], [i >= 0], on the near side of
    [start]); a zero or negative single argument yields the empty sequence;
    and the step is still applied: [range(7, step=2)] yields 0, 2, 4, 6. *)
Theorem range_with_stop_omitted (start step : Z) :
  range start None step = range 0 (Some start) step
  /\ (step <> 0%Z ->
      exists c : t Z,
        range start None step = Ok c
        /\ (forall fuel : nat,
              length (range_items 0 start step) + 1 <= fuel ->
              value (collect fuel c) = Some (Ok (range_items 0 start step)))
        /\ (forall x : Z,
              In x (range_items 0 start step)
              <-> exists i : Z,
                    (0 <= i)%Z /\ x = (i * step)%Z
                    /\ (if (0 <? step)%Z then (x < start)%Z
                        else (start < x)%Z)))
  /\ ((start <= 0)%Z ->
      exists c : t Z,
        range start None 1 = Ok c
        /\ forall fuel : nat, 1 <= fuel ->
             value (collect fuel c) = Some (Ok []))
  /\ (exists c : t Z,
        range 7 None 2 = Ok c
        /\ value (collect 10 c) = Some (Ok [0; 2; 4; 6]%Z)).
Proof.
  split; [reflexivity|]. split; [|split].
  - intros Hstep. unfold range, builtin_range.
    replace (step =? 0)%Z with false by (symmetry; apply Z.eqb_neq; exact Hstep).
    eexists. split; [reflexivity|]. split.
    + intros fuel Hf.
      apply collect_denotes with (k := 0); [|exact Hf].
      apply range_iterator_produces.
    + intros x. rewrite (range_items_spec 0 start x Hstep).
      split; intros [i [Hi [Hx Hlt]]]; exists i; repeat split;
        solve [assumption | lia].
  - intros Hstart. eexists. split; [reflexivity|]. intros fuel Hf.
    assert (E : range_items 0 start 1 = []).
    { unfold range_items, range_len. simpl.
      now replace (0 <? start)%Z with false
        by (symmetry; apply Z.ltb_ge; exact Hstart). }
    apply collect_denotes with (k := 0).
    + pose proof (range_iterator_produces 0 start 1) as H.
      rewrite E in H. exact H.
    + simpl. lia.
  - eexists. split; [reflexivity|]. vm_compute. reflexivity.
Qed.

Lemma range_with_stop_omitted_witness :
  exists c : t Z,
    range (-3) None 1 = Ok c
    /\ forall fuel : nat, 1 <= fuel -> value (collect fuel c) = Some (Ok []).
Proof.
  apply (proj1 (proj2 (proj2 (range_with_stop_omitted (-3) 1)))). lia.
Defined.

(** C6 (as the code has it). For every finite sequence [l] and every key
    function whose keys are hashable, [group_by] returns a mapping whose
    keys are the distinct keys of [l] in first-occurrence order and whose
    value for each key is the list, in order, of the items of [l] with that
    key; concatenating the values in key order gives a rearrangement of [l]
    with no loss and no duplication (the items regrouped by key), which is
    [l] itself exactly when equal keys are adjacent in [l].  When some item
    has an unhashable key, [group_by] raises TypeError at the first such
    item and returns no mapping. *)
Theorem group_by_partitions (A K : Type) (hash : K -> option Z)
        (eqb : K -> K -> bool) (key_func : A -> K) (l : list A) (fuel : nat) :
  (forall x y : K, eqb x y = true <-> x = y) ->
  length l + 1 <= fuel ->
  ((forall x : A, In x l -> hash (key_func x) <> None) ->
   value (group_by hash eqb fuel (of_list l) key_func)
   = Some (Ok (groups_of eqb key_func l)))
  /\ keys (groups_of eqb key_func l)
     = first_occurrences eqb (List.map key_func l)
  /\ (forall (k : K) (v : list A),
        In (k, v) (groups_of eqb key_func l) ->
        v = List.filter (fun x => eqb (key_func x) k) l)
  /\ Permutation (concat (values (groups_of eqb key_func l))) l
  /\ (concat (values (groups_of eqb key_func l)) = l
      <-> keys_adjacent key_func l)
  /\ (forall (pre : list A) (x : A) (post : list A),
        l = pre ++ x :: post ->
        (forall y : A, In y pre -> hash (key_func y) <> None) ->
        hash (key_func x) = None ->
        value (group_by hash eqb fuel (of_list l) key_func)
        = Some (Err unhashable)).
Proof.
  intros eqb_eq Hf. repeat split.
  - intros Hh.
    destruct (@group_by_loop_groups A K eqb eqb_eq key_func hash nat
                (list_iterator l) 0 l [] 0 fuel (of_list_produces l) Hf Hh)
      as [s' E].
    unfold group_by, consumed, value. simpl.
    change (@nil (K * list A)) with (groups_of eqb key_func []).
    now rewrite E.
  - apply keys_keyed.
  - intros k v H. unfold groups_of in H. apply in_map_iff in H.
    destruct H as [k' [H _]]. now inversion H.
  - now apply groups_of_permutation.
  - intros H. rewrite <- H. now apply groups_of_adjacent.
  - now apply groups_concat_adjacent.
  - intros pre x post El Hh Hx.
    assert (P : produces (list_iterator l) 0 0 (pre ++ x :: post))
      by (rewrite <- El; apply of_list_produces).
    destruct (@group_by_loop_unhashable A K eqb eqb_eq key_func hash nat
                (list_iterator l) 0 pre [] x post 0 fuel P) as [s' E];
      [|exact Hh | exact Hx |].
    { rewrite El, length_app in Hf. simpl in Hf. lia. }
    unfold group_by, consumed, value. simpl.
    change (@nil (K * list A)) with (groups_of eqb key_func []).
    now rewrite E.
Qed.

Lemma group_by_partitions_witness :
  value (group_by (fun x => Some x) Z.eqb 4 (of_list [1; 2; 3]%Z)
                  (fun x => x mod 2)%Z)
  = Some (Ok [(1, [1; 3]); (0, [2])]%Z).
Proof.
  apply (proj1 (@group_by_partitions Z Z (fun x => Some x) Z.eqb
                  (fun x => x mod 2)%Z [1; 2; 3]%Z 4 Z.eqb_eq
                  ltac:(simpl; lia))).
  intros x _. discriminate.
Defined.

(** C6, refuted as stated: grouping [1, 2, 3] by parity gives
    [{1: [1, 3], 0: [2]}]; the concatenation of its values is [1, 3, 2],
    which is not the source sequence. *)
Lemma group_by_concatenation_reorders :
  ~ (forall d : dict Z (list Z),
        value (group_by (fun x => Some x) Z.eqb 4 (of_list [1; 2; 3]%Z)
                        (fun x => x mod 2)%Z)
        = Some (Ok d) ->
        concat (values d) = [1; 2; 3]%Z).
Proof.
  intros H.
  specialize (H [(1, [1; 3]); (0, [2])]%Z eq_refl).
  discriminate.
Qed.

(** ** The other operators *)

Section MoreOperators.
Variables A S : Type.
Variable nxt : next_fn A S.

Lemma filter_produces (predicate : A -> bool) (k : nat) :
  forall (l : list A) (s : S),
  produces nxt k s l ->
  produces (gen_next (filter_genexpr nxt predicate)) (k + length l + 1)
           (Gen false s) (List.filter predicate l).
Proof.
  induction l as [|x l IH]; intros s H; simpl in H.
  - destruct H as [s' H]. exists (Gen true s'). intros fuel Hf.
    destruct fuel as [|f]; [simpl in Hf; lia|].
    unfold gen_next; simpl. now rewrite H by (simpl in Hf; lia).
  - destruct H as [s' [H Hl]]. simpl List.filter.
    destruct (predicate x) eqn:Px.
    + exists (Gen false s'). split.
      * intros fuel Hf. destruct fuel as [|f]; [simpl in Hf; lia|].
        unfold gen_next; simpl. rewrite H by (simpl in Hf; lia). now rewrite Px.
      * apply produces_mono with (k := k + length l + 1); [simpl; lia|].
        apply IH. exact Hl.
    + apply produces_shift with (k0 := k + length l + 1) (s0 := Gen false s').
      * intros fuel Hf. destruct fuel as [|f]; [simpl in Hf; lia|].
        replace (Datatypes.S f - 1) with f by lia.
        unfold gen_next; simpl. rewrite H by (simpl in Hf; lia). now rewrite Px.
      * simpl. lia.
      * apply IH. exact Hl.
Qed.

Lemma map_produces (O : Type) (transform : A -> O) (k : nat) :
  forall (l : list A) (s : S),
  produces nxt k s l ->
  produces (gen_next (map_genexpr nxt transform)) k (Gen false s)
           (List.map transform l).
Proof.
  induction l as [|x l IH]; intros s H; simpl in H.
  - destruct H as [s' H]. exists (Gen true s'). intros fuel Hf.
    unfold gen_next, map_genexpr; simpl. now rewrite H.
  - destruct H as [s' [H Hl]]. exists (Gen false s'). split.
    + intros fuel Hf. unfold gen_next, map_genexpr; simpl. now rewrite H.
    + apply IH. exact Hl.
Qed.

Lemma flat_map_produces (O : Type) (transform : A -> list O) (k : nat) :
  forall (l : list A) (s : S) (rest : list O),
  produces nxt k s l ->
  produces (gen_next (flat_map_genexpr nxt transform)) (k + length l + 1)
           (Gen false (s, rest)) (rest ++ List.flat_map transform l).
Proof.
  induction l as [|x l IH]; intros s rest H; simpl in H.
  - destruct H as [s' H].
    induction rest as [|y rest IHr].
    + exists (Gen true (s', [])). intros fuel Hf.
      destruct fuel as [|f]; [simpl in Hf; lia|].
      unfold gen_next; simpl. now rewrite H by (simpl in Hf; lia).
    + exists (Gen false (s, rest)). split; [|exact IHr].
      intros fuel Hf. destruct fuel; reflexivity.
  - destruct H as [s' [H Hl]].
    induction rest as [|y rest IHr].
    + apply produces_shift with (k0 := k + length l + 1)
                                (s0 := Gen false (s', transform x)).
      * intros fuel Hf. destruct fuel as [|f]; [simpl in Hf; lia|].
        replace (Datatypes.S f - 1) with f by lia.
        unfold gen_next; simpl. now rewrite H by (simpl in Hf; lia).
      * simpl. lia.
      * apply IH. exact Hl.
    + exists (Gen false (s, rest)). split; [|exact IHr].
      intros fuel Hf. destruct fuel; reflexivity.
Qed.

Lemma enumerate_produces (k : nat) :
  forall (l : list A) (s : S) (i : nat),
  produces nxt k s l ->
  produces (enumerate_next nxt) k (s, i) (combine (seq i (length l)) l).
Proof.
  induction l as [|x l IH]; intros s i H; simpl in H.
  - destruct H as [s' H]. exists (s', i). intros fuel Hf.
    unfold enumerate_next. now rewrite H.
  - destruct H as [s' [H Hl]]. exists (s', Datatypes.S i). split.
    + intros fuel Hf. unfold enumerate_next. now rewrite H.
    + apply IH. exact Hl.
Qed.

Lemma zip_produces (B S2 : Type) (nxt2 : next_fn B S2) (k k2 : nat) :
  forall (l : list A) (l2 : list B) (s : S) (s2 : S2),
  produces nxt k s l -> produces nxt2 k2 s2 l2 ->
  produces (zip_next nxt nxt2) (Nat.max k k2) (s, s2) (combine l l2).
Proof.
  induction l as [|a l IH]; intros l2 s s2 H H2; simpl in H.
  - destruct H as [s' H]. exists (s', s2). intros fuel Hf.
    unfold zip_next; simpl. now rewrite H by lia.
  - destruct H as [s' [H Hl]].
    destruct l2 as [|b l2]; simpl in H2.
    + destruct H2 as [s2' H2]. exists (s', s2'). intros fuel Hf.
      unfold zip_next; simpl. rewrite H by lia. now rewrite H2 by lia.
    + destruct H2 as [s2' [H2 Hl2]]. exists (s', s2'). split.
      * intros fuel Hf.
        unfold zip_next; simpl. rewrite H by lia. now rewrite H2 by lia.
      * apply IH; assumption.
Qed.
End MoreOperators.

(** ** What the terminal operators return *)

Lemma value_consumed (A V S' : Type) (self : t A) (get : S' -> state self)
      (r : option (result V * S')) :
  value (consumed self get r) = option_map fst r.
Proof. destruct r as [[v s]|]; reflexivity. Qed.

Section Terminals.
Variables A S : Type.
Variable nxt : next_fn A S.

Lemma count_loop_produces (k : nat) :
  forall (l : list A) (s : S) (fuel : nat) (acc : Z),
  produces nxt k s l -> k + length l + 1 <= fuel ->
  exists s', count_loop nxt fuel s acc
             = Some (Ok (acc + Z.of_nat (length l))%Z, s').
Proof.
  induction l as [|x l IH]; intros s fuel acc H Hf; simpl in H.
  - destruct H as [s' H]. exists s'.
    destruct fuel as [|f]; [simpl in Hf; lia|].
    simpl. rewrite H by (simpl in Hf; lia). now rewrite Z.add_0_r.
  - destruct H as [s' [H Hl]].
    destruct fuel as [|f]; [simpl in Hf; lia|].
    cbn [count_loop]. rewrite H by (simpl in Hf; lia).
    destruct (IH s' f (acc + 1)%Z Hl) as [s'' E]; [simpl in Hf; lia|].
    exists s''. rewrite E. do 3 f_equal. simpl length. lia.
Qed.

Lemma reduce_loop_produces (O : Type) (function : O -> A -> O) (k : nat) :
  forall (l : list A) (s : S) (fuel : nat) (acc : O),
  produces nxt k s l -> k + length l + 1 <= fuel ->
  exists s', reduce_loop nxt function fuel s acc
             = Some (Ok (fold_left function l acc), s').
Proof.
  induction l as [|x l IH]; intros s fuel acc H Hf; simpl in H.
  - destruct H as [s' H]. exists s'.
    destruct fuel as [|f]; [simpl in Hf; lia|].
    simpl. now rewrite H by (simpl in Hf; lia).
  - destruct H as [s' [H Hl]].
    destruct fuel as [|f]; [simpl in Hf; lia|].
    cbn [reduce_loop]. rewrite H by (simpl in Hf; lia).
    destruct (IH s' f (function acc x) Hl) as [s'' E]; [simpl in Hf; lia|].
    exists s''. exact E.
Qed.
End Terminals.

Lemma any_produces (S : Type) (nxt : next_fn bool S) (k : nat) :
  forall (l : list bool) (s : S) (fuel : nat),
  produces nxt k s l -> k + length l + 1 <= fuel ->
  exists s', any_ nxt fuel s = Some (Ok (existsb (fun b => b) l), s').
Proof.
  induction l as [|x l IH]; intros s fuel H Hf; simpl in H.
  - destruct H as [s' H]. exists s'.
    destruct fuel as [|f]; [simpl in Hf; lia|].
    simpl. now rewrite H by (simpl in Hf; lia).
  - destruct H as [s' [H Hl]].
    destruct fuel as [|f]; [simpl in Hf; lia|].
    cbn [any_]. rewrite H by (simpl in Hf; lia).
    destruct x; [exists s'; reflexivity|].
    apply IH; [exact Hl | simpl in Hf; lia].
Qed.

Lemma all_produces (S : Type) (nxt : next_fn bool S) (k : nat) :
  forall (l : list bool) (s : S) (fuel : nat),
  produces nxt k s l -> k + length l + 1 <= fuel ->
  exists s', all_ nxt fuel s = Some (Ok (forallb (fun b => b) l), s').
Proof.
  induction l as [|x l IH]; intros s fuel H Hf; simpl in H.
  - destruct H as [s' H]. exists s'.
    destruct fuel as [|f]; [simpl in Hf; lia|].
    simpl. now rewrite H by (simpl in Hf; lia).
  - destruct H as [s' [H Hl]].
    destruct fuel as [|f]; [simpl in Hf; lia|].
    cbn [all_]. rewrite H by (simpl in Hf; lia).
    destruct x; [|exists s'; reflexivity].
    apply IH; [exact Hl | simpl in Hf; lia].
Qed.

Lemma existsb_of_map (A : Type) (p : A -> bool) (l : list A) :
  existsb (fun b => b) (List.map p l) = existsb p l.
Proof. induction l as [|x l IH]; simpl; [reflexivity | now rewrite IH]. Qed.

Lemma forallb_of_map (A : Type) (p : A -> bool) (l : list A) :
  forallb (fun b => b) (List.map p l) = forallb p l.
Proof. induction l as [|x l IH]; simpl; [reflexivity | now rewrite IH]. Qed.

(** ** Distinct items *)

Section Distinct.
Variables A S : Type.
Variable nxt : next_fn A S.
Variable eqb : A -> A -> bool.
Hypothesis eqb_eq : forall x y, eqb x y = true <-> x = y.


Lemma existsb_member (x : A) (seen : list A) :
  existsb (eqb x) seen = true <-> In x seen.
Proof.
  rewrite existsb_exists. split.
  - intros [y [Hy E]]. apply eqb_eq in E. now subst.
  - intros H. exists x. split; [exact H | now apply eqb_eq].
Qed.


End Distinct.

(** ** Chunks of a positive size *)

Lemma chunks_upto_enough (A : Type) (n : nat) :
  0 < n -> forall (f f' : nat) (l : list A),
  length l <= f -> length l <= f' ->
  chunks_upto f n l = chunks_upto f' n l.
Proof.
  intros Hn. induction f as [|f IH]; intros f' l Hf Hf'.
  - destruct l; [|simpl in Hf; lia]. now destruct f'.
  - destruct l as [|x l]; [now destruct f'|].
    destruct f' as [|f']; [simpl in Hf'; lia|].
    cbn [chunks_upto]. f_equal.
    apply IH; rewrite length_skipn; cbn [length] in *; lia.
Qed.

Lemma chunks_cons (A : Type) (n : nat) (l : list A) :
  0 < n -> l <> [] ->
  chunks n l = firstn n l :: chunks n (skipn n l).
Proof.
  intros Hn Hl. destruct l as [|x l]; [congruence|].
  unfold chunks. cbn [length chunks_upto]. f_equal.
  apply chunks_upto_enough; [exact Hn | | lia].
  rewrite length_skipn. cbn [length]. lia.
Qed.

Lemma chunks_nth_error (A : Type) (n : nat) :
  0 < n -> forall (i : nat) (l : list A),
  nth_error (chunks n l) i
  = if i * n <? length l then Some (firstn n (skipn (i * n) l)) else None.
Proof.
  intros Hn. induction i as [|i IH]; intros l.
  - destruct l as [|x l]; [reflexivity|].
    rewrite chunks_cons by (exact Hn || discriminate). reflexivity.
  - destruct l as [|x l].
    + cbn [length]. now replace (Datatypes.S i * n <? 0) with false
        by (symmetry; apply Nat.ltb_ge; lia).
    + rewrite chunks_cons by (exact Hn || discriminate).
      cbn [nth_error]. rewrite IH, length_skipn, skipn_skipn.
      replace (Datatypes.S i * n) with (i * n + n) by lia.
      destruct (Nat.ltb_spec (i * n) (length (x :: l) - n));
        destruct (Nat.ltb_spec (i * n + n) (length (x :: l)));
        solve [reflexivity | lia].
Qed.

Lemma chunks_concat (A : Type) (n : nat) :
  0 < n -> forall (m : nat) (l : list A),
  length l <= m -> concat (chunks n l) = l.
Proof.
  intros Hn. induction m as [|m IH]; intros l Hl.
  - destruct l; [reflexivity | simpl in Hl; lia].
  - destruct l as [|x l]; [reflexivity|].
    rewrite chunks_cons by (exact Hn || discriminate).
    cbn [concat]. rewrite IH; [apply firstn_skipn|].
    rewrite length_skipn. cbn [length] in *. lia.
Qed.

Section ChunkPositive.
Variables A S : Type.
Variable nxt : next_fn A S.
Variable size : Z.
Hypothesis Hsize : (0 < size)%Z.

(** One run of the loop from a partial chunk: it hands out the chunk
    completed to [size] items when the source has enough left, and the
    partial chunk, if it is not empty, when the source ends first. *)
Lemma chunk_loop_positive (k : nat) :
  forall (l : list A) (s : S) (chunk : list A),
  produces nxt k s l -> length chunk < Z.to_nat size ->
  (Z.to_nat size <= length chunk + length l ->
   exists s',
     (forall fuel, k + length l + 1 <= fuel ->
        chunk_loop nxt size fuel s chunk
        = Some (Yield (chunk ++ firstn (Z.to_nat size - length chunk) l)
                      (s', InLoop)))
     /\ produces nxt k s' (skipn (Z.to_nat size - length chunk) l))
  /\ (length chunk + length l < Z.to_nat size ->
      exists s',
        forall fuel, k + length l + 1 <= fuel ->
          chunk_loop nxt size fuel s chunk
          = Some (match chunk ++ l with
                  | [] => StopIteration (s', AfterLoop)
                  | _ :: _ => Yield (chunk ++ l) (s', AfterLoop)
                  end)).
Proof.
  induction l as [|x l IH]; intros s chunk H Hc; simpl in H.
  - destruct H as [s' H]. split; [cbn [length]; lia|]. intros _. exists s'.
    intros fuel Hf. destruct fuel as [|f]; [lia|].
    cbn [chunk_loop]. rewrite H by (cbn [length] in Hf; lia).
    rewrite app_nil_r. now destruct chunk.
  - destruct H as [s' [H Hl]].
    destruct (Z.eqb_spec (Z.of_nat (length chunk + 1)) size) as [E|E].
    + assert (En : Z.to_nat size - length chunk = 1) by lia.
      split; [|cbn [length]; lia]. intros _. exists s'. rewrite En. split.
      * intros fuel Hf. destruct fuel as [|f]; [lia|].
        cbn [chunk_loop]. rewrite H by (cbn [length] in Hf; lia).
        rewrite length_app. cbn [length].
        now replace (Z.of_nat (length chunk + 1) =? size)%Z with true
          by (symmetry; apply Z.eqb_eq; exact E).
      * exact Hl.
    + assert (Hc' : length (chunk ++ [x]) < Z.to_nat size)
        by (rewrite length_app; cbn [length]; lia).
      destruct (IH s' (chunk ++ [x]) Hl Hc') as [IH1 IH2].
      rewrite length_app in IH1, IH2. cbn [length] in IH1, IH2.
      rewrite <- app_assoc in IH1, IH2. cbn [app] in IH1, IH2.
      assert (Step : forall fuel, k + length (x :: l) + 1 <= fuel ->
                chunk_loop nxt size fuel s chunk
                = chunk_loop nxt size (fuel - 1) s' (chunk ++ [x])).
      { intros fuel Hf. destruct fuel as [|f]; [lia|].
        cbn [chunk_loop]. rewrite H by (cbn [length] in Hf; lia).
        rewrite length_app. cbn [length].
        replace (Z.of_nat (length chunk + 1) =? size)%Z with false
          by (symmetry; apply Z.eqb_neq; exact E).
        now replace (Datatypes.S f - 1) with f by lia. }
      replace (Z.to_nat size - length chunk)
        with (Datatypes.S (Z.to_nat size - (length chunk + 1))) by lia.
      cbn [firstn skipn].
      split; intros Hn.
      * destruct IH1 as [s'' [E1 P1]]; [cbn [length] in Hn; lia|].
        exists s''. split; [|exact P1].
        intros fuel Hf. rewrite Step by exact Hf.
        now rewrite E1 by (cbn [length] in Hf; lia).
      * destruct IH2 as [s'' E2]; [cbn [length] in Hn; lia|].
        exists s''. intros fuel Hf. rewrite Step by exact Hf.
        now rewrite E2 by (cbn [length] in Hf; lia).
Qed.

Lemma chunk_produces_positive (k : nat) :
  forall (m : nat) (l : list A) (s : S),
  length l <= m -> produces nxt k s l ->
  produces (gen_next (chunk_generator nxt size)) (k + length l + 1)
           (Gen false (s, InLoop)) (chunks (Z.to_nat size) l).
Proof.
  assert (Hn : 0 < Z.to_nat size) by lia.
  assert (Stop : forall (s : S) (j : nat),
            produces (gen_next (chunk_generator nxt size)) j
                     (Gen false (s, AfterLoop)) []).
  { intros s j. exists (Gen true (s, AfterLoop)). intros fuel _. reflexivity. }
  induction m as [|m IH]; intros l s Hm H.
  - destruct l; [|cbn [length] in Hm; lia].
    destruct H as [s0 H]. exists (Gen true (s0, AfterLoop)).
    intros fuel Hf. destruct fuel as [|f]; [cbn [length] in Hf; lia|].
    unfold gen_next, chunk_generator; cbn [finished frame fst snd chunk_loop].
    now rewrite H by (cbn [length] in Hf; lia).
  - destruct l as [|x l].
    + apply (IH [] s); [cbn [length]; lia | exact H].
    + rewrite chunks_cons by (exact Hn || discriminate).
      destruct (@chunk_loop_positive k (x :: l) s [] H Hn) as [C1 C2].
      cbn [length app] in C1, C2. rewrite Nat.sub_0_r in C1.
      destruct (Nat.le_gt_cases (Z.to_nat size) (length (x :: l)))
        as [Hle|Hgt].
      * destruct (C1 Hle) as [s' [E P]].
        exists (Gen false (s', InLoop)). split.
        -- intros fuel Hf.
           unfold gen_next, chunk_generator; cbn [finished frame fst snd].
           now rewrite E by exact Hf.
        -- apply produces_mono
             with (k := k + length (skipn (Z.to_nat size) (x :: l)) + 1).
           ++ rewrite length_skipn. lia.
           ++ apply IH; [|exact P].
              rewrite length_skipn. cbn [length] in *. lia.
      * destruct (C2 Hgt) as [s' E].
        exists (Gen false (s', AfterLoop)). split.
        -- intros fuel Hf.
           unfold gen_next, chunk_generator; cbn [finished frame fst snd].
           rewrite E by exact Hf.
           now rewrite firstn_all2 by lia.
        -- rewrite skipn_all2 by lia. apply Stop.
Qed.
End ChunkPositive.

(** ** Sorting *)

Section SortedFacts.
Variables A B : Type.
Variable lt : B -> B -> bool.
Variable key : A -> B.
Variable reverse : bool.

Lemma insert_sorted_permutation (x : A) (l : list A) :
  Permutation (insert_sorted lt key reverse x l) (x :: l).
Proof.
  induction l as [|y l IH]; simpl; [reflexivity|].
  destruct (comes_first lt key reverse y x); [|reflexivity].
  rewrite IH. apply perm_swap.
Qed.

Lemma sorted_permutation (l : list A) :
  Permutation (sorted lt key l reverse) l.
Proof.
  induction l as [|x l IH]; simpl; [reflexivity|].
  rewrite insert_sorted_permutation. now constructor.
Qed.

Hypothesis lt_asym : forall a b, lt a b = true -> lt b a = false.
Hypothesis lt_negtrans :
  forall a b c, lt a b = false -> lt b c = false -> lt a c = false.

Lemma comes_first_asym (x y : A) :
  comes_first lt key reverse y x = true ->
  comes_first lt key reverse x y = false.
Proof. unfold comes_first. destruct reverse; apply lt_asym. Qed.

Lemma comes_first_negtrans (x y z : A) :
  comes_first lt key reverse y x = false ->
  comes_first lt key reverse z y = false ->
  comes_first lt key reverse z x = false.
Proof.
  unfold comes_first. destruct reverse; intros H1 H2.
  - exact (lt_negtrans H1 H2).
  - exact (lt_negtrans H2 H1).
Qed.

Lemma insert_sorted_sorted (x : A) (l : list A) :
  StronglySorted (fun a b => comes_first lt key reverse b a = false) l ->
  StronglySorted (fun a b => comes_first lt key reverse b a = false)
                 (insert_sorted lt key reverse x l).
Proof.
  induction l as [|y l IH]; intros H; simpl.
  - constructor; constructor.
  - inversion H as [|? ? Hl Hy]; subst.
    destruct (comes_first lt key reverse y x) eqn:E.
    + constructor; [apply IH; exact Hl|].
      apply (Permutation_Forall
               (Permutation_sym (insert_sorted_permutation x l))).
      constructor; [|exact Hy].
      apply comes_first_asym. exact E.
    + constructor; [exact H|].
      constructor; [exact E|].
      apply Forall_forall. intros z Hz.
      rewrite Forall_forall in Hy.
      apply comes_first_negtrans with (y := y); [exact E | now apply Hy].
Qed.

Lemma sorted_sorted (l : list A) :
  StronglySorted (fun a b => comes_first lt key reverse b a = false)
                 (sorted lt key l reverse).
Proof.
  induction l as [|x l IH]; simpl; [constructor|].
  apply insert_sorted_sorted. exact IH.
Qed.

(** Items with equal keys keep the order they had. *)
Lemma insert_sorted_stable (same : A -> bool) (x : A) (l : list A) :
  (forall y, same x = true -> same y = true ->
             comes_first lt key reverse y x = false) ->
  List.filter same (insert_sorted lt key reverse x l)
  = List.filter same (x :: l).
Proof.
  intros Hsame. induction l as [|y l IH]; [reflexivity|].
  cbn [insert_sorted].
  destruct (comes_first lt key reverse y x) eqn:E; [|reflexivity].
  cbn [List.filter] in *. rewrite IH.
  destruct (same x) eqn:Sx; [|reflexivity].
  destruct (same y) eqn:Sy; [|reflexivity].
  rewrite Hsame in E by (exact Sy || reflexivity). discriminate.
Qed.

Lemma sorted_stable (same : A -> bool) (l : list A) :
  (forall x y, same x = true -> same y = true -> key x = key y) ->
  List.filter same (sorted lt key l reverse) = List.filter same l.
Proof.
  intros Hsame.
  assert (Irr : forall b, lt b b = false).
  { intros b. destruct (lt b b) eqn:E; [|reflexivity].
    rewrite (lt_asym E) in E. discriminate. }
  induction l as [|x l IH]; [reflexivity|].
  cbn [sorted fold_right]. fold (sorted lt key l reverse).
  rewrite insert_sorted_stable.
  - cbn [List.filter]. now rewrite IH.
  - intros y Sx Sy. unfold comes_first.
    rewrite (Hsame x y Sx Sy). destruct reverse; apply Irr.
Qed.
End SortedFacts.

(** ** Short-circuit evaluation *)

Section ShortCircuit.
Variable A : Type.
Variable item_at : nat -> option A.
Variable predicate : A -> bool.

(** [any] draws up to the first item whose test is true. *)
Lemma any_counted_first (x : A) :
  forall (d i c fuel : nat),
  (forall j, j < d ->
     exists y, item_at (i + j) = Some y /\ predicate y = false) ->
  item_at (i + d) = Some x -> predicate x = true ->
  d + 1 <= fuel ->
  any_ (gen_next (map_genexpr (counted (seq_next item_at)) predicate))
       fuel (Gen false (i, c))
  = Some (Ok true, Gen false (i + d + 1, c + d + 1)).
Proof.
  induction d as [|d IH]; intros i c fuel Hskip Hx Hp Hf;
    (destruct fuel as [|f]; [lia|]); cbn [any_];
    unfold gen_next at 1, map_genexpr at 1, counted at 1, seq_next at 1;
    cbn [finished frame fst snd].
  - rewrite Nat.add_0_r in Hx. rewrite Hx, Hp. do 4 f_equal; lia.
  - destruct (Hskip 0 ltac:(lia)) as [y [Hy Hpy]].
    rewrite Nat.add_0_r in Hy. rewrite Hy, Hpy.
    rewrite (IH (Datatypes.S i) (Datatypes.S c) f).
    + do 4 f_equal; lia.
    + intros j Hj. replace (Datatypes.S i + j) with (i + Datatypes.S j) by lia.
      apply Hskip. lia.
    + replace (Datatypes.S i + d) with (i + Datatypes.S d) by lia. exact Hx.
    + exact Hp.
    + lia.
Qed.

(** [all] draws up to the first item whose test is false. *)
Lemma all_counted_first (x : A) :
  forall (d i c fuel : nat),
  (forall j, j < d ->
     exists y, item_at (i + j) = Some y /\ predicate y = true) ->
  item_at (i + d) = Some x -> predicate x = false ->
  d + 1 <= fuel ->
  all_ (gen_next (map_genexpr (counted (seq_next item_at)) predicate))
       fuel (Gen false (i, c))
  = Some (Ok false, Gen false (i + d + 1, c + d + 1)).
Proof.
  induction d as [|d IH]; intros i c fuel Hskip Hx Hp Hf;
    (destruct fuel as [|f]; [lia|]); cbn [all_];
    unfold gen_next at 1, map_genexpr at 1, counted at 1, seq_next at 1;
    cbn [finished frame fst snd].
  - rewrite Nat.add_0_r in Hx. rewrite Hx, Hp. do 4 f_equal; lia.
  - destruct (Hskip 0 ltac:(lia)) as [y [Hy Hpy]].
    rewrite Nat.add_0_r in Hy. rewrite Hy, Hpy.
    rewrite (IH (Datatypes.S i) (Datatypes.S c) f).
    + do 4 f_equal; lia.
    + intros j Hj. replace (Datatypes.S i + j) with (i + Datatypes.S j) by lia.
      apply Hskip. lia.
    + replace (Datatypes.S i + d) with (i + Datatypes.S d) by lia. exact Hx.
    + exact Hp.
    + lia.
Qed.
End ShortCircuit.

(** ** Zipping sources of different lengths *)

Section ZipCounted.
Variables A B : Type.
Variable l1 : list A.
Variable l2 : list B.

(** Draining [zip] over two lists, the first one instrumented: the cursors
    after the last call.  The first list is asked first, so it hands out one
    item more than the second when the second is the shorter one. *)
Lemma zip_counted_drain :
  forall (d i c j : nat) (acc : list (A * B)) (fuel : nat),
  d = Nat.min (length l1 - i) (length l2 - j) ->
  d + 1 <= fuel ->
  exists v,
    list_loop (zip_next (counted (list_iterator l1)) (list_iterator l2))
              fuel ((i, c), j) acc
    = Some (Ok v,
            if length l1 - i <=? length l2 - j
            then ((i + d, c + d), j + d)
            else ((i + d + 1, c + d + 1), j + d)).
Proof.
  induction d as [|d IH]; intros i c j acc fuel Hd Hf;
    (destruct fuel as [|f]; [lia|]); cbn [list_loop];
    unfold zip_next at 1, counted at 1, list_iterator at 1 2, seq_next at 1 2;
    cbn [fst snd].
  - destruct (Nat.leb_spec (length l1 - i) (length l2 - j)) as [Hle|Hgt].
    + assert (E : nth_error l1 i = None) by (apply nth_error_None; lia).
      rewrite E. exists acc. repeat first [lia | progress f_equal].
    + destruct (nth_error l1 i) as [a|] eqn:E;
        [|apply nth_error_None in E; lia].
      assert (E2 : nth_error l2 j = None) by (apply nth_error_None; lia).
      rewrite E2. exists acc. repeat first [lia | progress f_equal].
  - destruct (nth_error l1 i) as [a|] eqn:E;
      [|apply nth_error_None in E; lia].
    destruct (nth_error l2 j) as [b|] eqn:E2;
      [|apply nth_error_None in E2; lia].
    destruct (IH (Datatypes.S i) (Datatypes.S c) (Datatypes.S j)
                 (acc ++ [(a, b)]) f) as [v Ev]; [lia | lia |].
    exists v. rewrite Ev.
    replace (length l1 - Datatypes.S i <=? length l2 - Datatypes.S j)
      with (length l1 - i <=? length l2 - j).
    + destruct (length l1 - i <=? length l2 - j); repeat first [lia | progress f_equal].
    + destruct (Nat.leb_spec (length l1 - i) (length l2 - j));
        destruct (Nat.leb_spec (length l1 - Datatypes.S i)
                               (length l2 - Datatypes.S j));
        solve [reflexivity | lia].
Qed.
End ZipCounted.

Lemma counted_produces (A S : Type) (nxt : next_fn A S) (k : nat) :
  forall (l : list A) (s : S) (c : nat),
  produces nxt k s l -> produces (counted nxt) k (s, c) l.
Proof.
  induction l as [|x l IH]; intros s c H; simpl in H.
  - destruct H as [s' H]. exists (s', c). intros fuel Hf.
    unfold counted; simpl. now rewrite H.
  - destruct H as [s' [H Hl]]. exists (s', Datatypes.S c). split.
    + intros fuel Hf. unfold counted; simpl. now rewrite H.
    + apply IH. exact Hl.
Qed.

(** ** Exceptions raised by the source *)

Section Failures.
Variables A S : Type.
Variable nxt : next_fn A S.

Lemma fails_after_mono (k k' : nat) (e : exn) :
  k <= k' -> forall (l : list A) (s : S),
  fails_after nxt k s l e -> fails_after nxt k' s l e.
Proof.
  intros Hk l; induction l as [|x l IH]; intros s H; simpl in *.
  - destruct H as [s' H]. exists s'. intros fuel Hf. apply H. lia.
  - destruct H as [s' [H Hl]]. exists s'. split.
    + intros fuel Hf. apply H. lia.
    + apply IH. exact Hl.
Qed.

Lemma fails_after_shift (k0 k' : nat) (s s0 : S) (l : list A) (e : exn) :
  (forall fuel, k' <= fuel -> nxt fuel s = nxt (fuel - 1) s0) ->
  k0 + 1 <= k' ->
  fails_after nxt k0 s0 l e -> fails_after nxt k' s l e.
Proof.
  intros Hs Hk H. destruct l as [|x l]; simpl in *.
  - destruct H as [s' H]. exists s'. intros fuel Hf.
    rewrite Hs by exact Hf. apply H. lia.
  - destruct H as [s' [H Hl]]. exists s'. split.
    + intros fuel Hf. rewrite Hs by exact Hf. apply H. lia.
    + apply fails_after_mono with (k := k0); [lia | exact Hl].
Qed.

Lemma list_loop_fails (k : nat) (e : exn) :
  forall (l : list A) (s : S) (fuel : nat) (acc : list A),
  fails_after nxt k s l e -> k + length l + 1 <= fuel ->
  exists s', list_loop nxt fuel s acc = Some (Err e, s').
Proof.
  induction l as [|x l IH]; intros s fuel acc H Hf; simpl in H.
  - destruct H as [s' H]. exists s'.
    destruct fuel as [|f]; [simpl in Hf; lia|].
    simpl. now rewrite H by (simpl in Hf; lia).
  - destruct H as [s' [H Hl]].
    destruct fuel as [|f]; [simpl in Hf; lia|].
    simpl. rewrite H by (simpl in Hf; lia).
    apply IH; [exact Hl | simpl in Hf; lia].
Qed.
End Failures.

Section FailuresThrough.
Variables A S : Type.
Variable nxt : next_fn A S.

Lemma map_fails (O : Type) (transform : A -> O) (k : nat) (e : exn) :
  forall (l : list A) (s : S),
  fails_after nxt k s l e ->
  fails_after (gen_next (map_genexpr nxt transform)) k (Gen false s)
              (List.map transform l) e.
Proof.
  induction l as [|x l IH]; intros s H; simpl in H.
  - destruct H as [s' H]. exists (Gen true s'). intros fuel Hf.
    unfold gen_next, map_genexpr; simpl. now rewrite H.
  - destruct H as [s' [H Hl]]. exists (Gen false s'). split.
    + intros fuel Hf. unfold gen_next, map_genexpr; simpl. now rewrite H.
    + apply IH. exact Hl.
Qed.

Lemma filter_fails (predicate : A -> bool) (k : nat) (e : exn) :
  forall (l : list A) (s : S),
  fails_after nxt k s l e ->
  fails_after (gen_next (filter_genexpr nxt predicate)) (k + length l + 1)
              (Gen false s) (List.filter predicate l) e.
Proof.
  induction l as [|x l IH]; intros s H; simpl in H.
  - destruct H as [s' H]. exists (Gen true s'). intros fuel Hf.
    destruct fuel as [|f]; [simpl in Hf; lia|].
    unfold gen_next; simpl. now rewrite H by (simpl in Hf; lia).
  - destruct H as [s' [H Hl]]. simpl List.filter.
    destruct (predicate x) eqn:Px.
    + exists (Gen false s'). split.
      * intros fuel Hf. destruct fuel as [|f]; [simpl in Hf; lia|].
        unfold gen_next; simpl. rewrite H by (simpl in Hf; lia). now rewrite Px.
      * apply fails_after_mono with (k := k + length l + 1); [simpl; lia|].
        apply IH. exact Hl.
    + apply fails_after_shift with (k0 := k + length l + 1)
                                   (s0 := Gen false s').
      * intros fuel Hf. destruct fuel as [|f]; [simpl in Hf; lia|].
        replace (Datatypes.S f - 1) with f by lia.
        unfold gen_next; simpl. rewrite H by (simpl in Hf; lia). now rewrite Px.
      * simpl. lia.
      * apply IH. exact Hl.
Qed.
End FailuresThrough.


(** A generator that has returned or raised is finished, whatever the
    consumer was. *)
Lemma list_loop_generator_spent (A L : Type) (body : next_fn A L) :
  forall (fuel : nat) (g : gen L) (acc : list A) (r : result (list A))
         (g' : gen L),
  list_loop (gen_next body) fuel g acc = Some (r, g') ->
  finished g' = true.
Proof.
  induction fuel as [|f IH]; intros g acc r g' H; simpl in H; [discriminate|].
  unfold gen_next in H at 1.
  destruct (finished g) eqn:Fg.
  - inversion H; subst. exact Fg.
  - destruct (body f (frame g)) as [[x fr|fr|e fr]|]; try discriminate.
    + apply (IH _ _ _ _ H).
    + inversion H; subst. reflexivity.
    + inversion H; subst. reflexivity.
Qed.

Lemma count_loop_generator_spent (A L : Type) (body : next_fn A L) :
  forall (fuel : nat) (g : gen L) (acc : Z) (r : result Z) (g' : gen L),
  count_loop (gen_next body) fuel g acc = Some (r, g') ->
  finished g' = true.
Proof.
  induction fuel as [|f IH]; intros g acc r g' H; simpl in H; [discriminate|].
  unfold gen_next in H at 1.
  destruct (finished g) eqn:Fg.
  - inversion H; subst. exact Fg.
  - destruct (body f (frame g)) as [[x fr|fr|e fr]|]; try discriminate.
    + apply (IH _ _ _ _ H).
    + inversion H; subst. reflexivity.
    + inversion H; subst. reflexivity.
Qed.

Lemma reduce_loop_generator_spent (A L O : Type) (body : next_fn A L)
      (function : O -> A -> O) :
  forall (fuel : nat) (g : gen L) (acc : O) (r : result O) (g' : gen L),
  reduce_loop (gen_next body) function fuel g acc = Some (r, g') ->
  finished g' = true.
Proof.
  induction fuel as [|f IH]; intros g acc r g' H; simpl in H; [discriminate|].
  unfold gen_next in H at 1.
  destruct (finished g) eqn:Fg.
  - inversion H; subst. exact Fg.
  - destruct (body f (frame g)) as [[x fr|fr|e fr]|]; try discriminate.
    + apply (IH _ _ _ _ H).
    + inversion H; subst. reflexivity.
    + inversion H; subst. reflexivity.
Qed.

(** Every terminal operator finds a finished generator empty. *)
Lemma spent_generator_is_empty (A L : Type) (body : next_fn A L) (g : gen L) :
  finished g = true ->
  forall fuel : nat,
  value (collect (Datatypes.S fuel) (LazyCollection Generator g (gen_next body)))
  = Some (Ok []).
Proof.
  intros H fuel. unfold collect, consumed, list_, value, gen_next; simpl.
  now rewrite H.
Qed.

(** ** Further properties of the operators *)

(** X1. [filter(predicate)] hands out exactly the items of the source that
    satisfy the predicate, in source order; collecting it returns that
    list. *)
Theorem filter_keeps_matching_items (A : Type) (c : t A)
        (predicate : A -> bool) (k : nat) (l : list A) :
  denotes c k l ->
  denotes (filter c predicate) (k + length l + 1) (List.filter predicate l)
  /\ forall fuel : nat, k + 2 * length l + 2 <= fuel ->
       value (collect fuel (filter c predicate))
       = Some (Ok (List.filter predicate l)).
Proof.
  intros H.
  assert (D : denotes (filter c predicate) (k + length l + 1)
                      (List.filter predicate l)).
  { unfold denotes. simpl. apply filter_produces. exact H. }
  split; [exact D|]. intros fuel Hf.
  apply collect_denotes with (k := k + length l + 1); [exact D|].
  pose proof (filter_length_le predicate l). lia.
Qed.

Lemma filter_keeps_matching_items_witness :
  value (collect 10 (filter (of_list [1; 2; 3; 4]%Z) Z.even))
  = Some (Ok [2; 4]%Z).
Proof.
  apply (proj2 (@filter_keeps_matching_items Z (of_list [1; 2; 3; 4]%Z) Z.even
                  0 [1; 2; 3; 4]%Z (of_list_denotes _)) 10).
  simpl. lia.
Defined.

(** X2. [map(transform)] hands out the image of every item of the source,
    in source order, one upstream item per item handed out. *)
Theorem map_transforms_every_item (A O : Type) (c : t A) (transform : A -> O)
        (k : nat) (l : list A) :
  denotes c k l ->
  denotes (map c transform) k (List.map transform l)
  /\ forall fuel : nat, k + length l + 1 <= fuel ->
       value (collect fuel (map c transform))
       = Some (Ok (List.map transform l)).
Proof.
  intros H.
  assert (D : denotes (map c transform) k (List.map transform l)).
  { unfold denotes. simpl. apply map_produces. exact H. }
  split; [exact D|]. intros fuel Hf.
  apply collect_denotes with (k := k); [exact D|].
  rewrite length_map. exact Hf.
Qed.

Lemma map_transforms_every_item_witness :
  value (collect 4 (map (of_list [1; 2; 3]%Z) (fun x => x * x)%Z))
  = Some (Ok [1; 4; 9]%Z).
Proof.
  apply (proj2 (@map_transforms_every_item Z Z (of_list [1; 2; 3]%Z)
                  (fun x => x * x)%Z 0 [1; 2; 3]%Z (of_list_denotes _)) 4).
  simpl. lia.
Defined.

(** X3. [flat_map(transform)] hands out the items of [transform(x)] for
    every item [x] of the source, in order: the concatenation of the
    transformed items.  An item mapped to an empty iterable contributes
    nothing. *)
Theorem flat_map_concatenates (A O : Type) (c : t A)
        (transform : A -> list O) (k : nat) (l : list A) :
  denotes c k l ->
  denotes (flat_map c transform) (k + length l + 1)
          (concat (List.map transform l))
  /\ forall fuel : nat,
       k + length l + length (concat (List.map transform l)) + 2 <= fuel ->
       value (collect fuel (flat_map c transform))
       = Some (Ok (concat (List.map transform l))).
Proof.
  intros H.
  assert (D : denotes (flat_map c transform) (k + length l + 1)
                      (concat (List.map transform l))).
  { unfold denotes. simpl. rewrite <- flat_map_concat_map.
    exact (@flat_map_produces A (state c) (next c) O transform k l
             (__iter__ c) [] H). }
  split; [exact D|]. intros fuel Hf.
  apply collect_denotes with (k := k + length l + 1); [exact D | lia].
Qed.

Lemma flat_map_concatenates_witness :
  value (collect 10 (flat_map (of_list [1; 0; 2]%Z)
                              (fun x => repeat x (Z.to_nat x))))
  = Some (Ok [1; 2; 2]%Z).
Proof.
  apply (proj2 (@flat_map_concatenates Z Z (of_list [1; 0; 2]%Z)
                  (fun x => repeat x (Z.to_nat x)) 0 [1; 0; 2]%Z
                  (of_list_denotes _)) 10).
  simpl. lia.
Defined.

(** Lists are unhashable: [distinct] over the lists [chunk] hands out, and
    [group_by] with the list itself as the key, raise TypeError. *)
Example example_distinct_over_chunks :
  value (collect 10
           (distinct (fun _ : list Z => None)
                     (fun a b => if list_eq_dec Z.eq_dec a b then true else false)
                     (chunk (of_list [1; 2; 1; 2]%Z) 2)))
  = Some (Err unhashable).
Proof. reflexivity. Qed.

Example example_group_by_list_keys :
  value (group_by (fun _ : list Z => None)
                  (fun a b => if list_eq_dec Z.eq_dec a b then true else false)
                  10 (chunk (of_list [1; 2; 1; 2]%Z) 2) (fun g => g))
  = Some (Err unhashable).
Proof. reflexivity. Qed.



(** X5. [sort(key, reverse)] returns the items of the source rearranged in
    key order: the result is a permutation of the source in which no item
    is followed by one with a strictly smaller key (strictly larger, with
    [reverse=True]), provided [<] on the keys is an asymmetric comparison
    whose negation is transitive. *)
Theorem sort_orders_by_key (A B : Type) (lt : B -> B -> bool) (key : A -> B)
        (reverse : bool) (c : t A) (k : nat) (l : list A) (fuel : nat) :
  (forall a b : B, lt a b = true -> lt b a = false) ->
  (forall a b d : B, lt a b = false -> lt b d = false -> lt a d = false) ->
  denotes c k l -> k + length l + 1 <= fuel ->
  exists l' : list A,
    value (sort lt fuel c key reverse) = Some (Ok (of_list l'))
    /\ Permutation l' l
    /\ StronglySorted
         (fun x y => if reverse then lt (key x) (key y) = false
                     else lt (key y) (key x) = false) l'.
Proof.
  intros lt_asym lt_negtrans H Hf.
  exists (sorted lt key l reverse). split; [|split].
  - pose proof (@collect_denotes A c k l fuel H Hf) as E.
    unfold sort, value in *.
    destruct (collect fuel c) as [[[v|e] c']|]; simpl in E;
      try discriminate.
    inversion E; subst. reflexivity.
  - apply sorted_permutation.
  - pose proof (@sorted_sorted A B lt key reverse lt_asym lt_negtrans l) as P.
    destruct reverse; exact P.
Qed.

Lemma sort_orders_by_key_witness :
  exists l' : list Z,
    value (sort Z.ltb 5 (of_list [3; 1; 2]%Z) (fun x => x) true)
    = Some (Ok (of_list l'))
    /\ Permutation l' [3; 1; 2]%Z
    /\ StronglySorted (fun x y => (x <? y)%Z = false) l'.
Proof.
  apply (@sort_orders_by_key Z Z Z.ltb (fun x => x) true
           (of_list [3; 1; 2]%Z) 0 [3; 1; 2]%Z 5).
  - intros a b. rewrite Z.ltb_lt, Z.ltb_ge. lia.
  - intros a b d. rewrite !Z.ltb_ge. lia.
  - apply of_list_denotes.
  - simpl. lia.
Defined.

(** X6. [sort] is stable: provided [<] on the keys is an asymmetric
    comparison whose negation is transitive (a strict weak order), the
    items of the source that share a key come out in the order they had in
    the source, also with [reverse=True]. *)
Theorem sort_is_stable (A B : Type) (lt : B -> B -> bool) (key : A -> B)
        (reverse : bool) (c : t A) (k : nat) (l : list A) (fuel : nat) :
  (forall a b : B, lt a b = true -> lt b a = false) ->
  (forall a b d : B, lt a b = false -> lt b d = false -> lt a d = false) ->
  denotes c k l -> k + length l + 1 <= fuel ->
  exists l' : list A,
    value (sort lt fuel c key reverse) = Some (Ok (of_list l'))
    /\ forall same : A -> bool,
         (forall x y, same x = true -> same y = true -> key x = key y) ->
         List.filter same l' = List.filter same l.
Proof.
  intros lt_asym _ H Hf.
  exists (sorted lt key l reverse). split.
  - pose proof (@collect_denotes A c k l fuel H Hf) as E.
    unfold sort, value in *.
    destruct (collect fuel c) as [[[v|e] c']|]; simpl in E;
      try discriminate.
    inversion E; subst. reflexivity.
  - intros same Hsame. now apply sorted_stable.
Qed.

Lemma sort_is_stable_witness :
  exists l' : list (Z * Z),
    value (sort Z.ltb 5 (of_list [(2, 0); (1, 1); (2, 2)]%Z) fst false)
    = Some (Ok (of_list l'))
    /\ forall same : Z * Z -> bool,
         (forall x y, same x = true -> same y = true -> fst x = fst y) ->
         List.filter same l' = List.filter same [(2, 0); (1, 1); (2, 2)]%Z.
Proof.
  apply (@sort_is_stable (Z * Z) Z Z.ltb fst false
           (of_list [(2, 0); (1, 1); (2, 2)]%Z) 0
           [(2, 0); (1, 1); (2, 2)]%Z 5).
  - intros a b. rewrite Z.ltb_lt, Z.ltb_ge. lia.
  - intros a b d. rewrite !Z.ltb_ge. lia.
  - apply of_list_denotes.
  - simpl. lia.
Defined.

(** X7. [sort] is not lazy: over an operator result (a generator) the call
    itself draws the whole upstream, which is spent afterwards, while the
    sorted result wraps a list and can be iterated again and again. *)
Theorem sort_drains_its_upstream (A B L : Type) (lt : B -> B -> bool)
        (key : A -> B) (reverse : bool) (body : next_fn A L) (l0 : L)
        (fuel : nat) (r c' : t A) :
  sort lt fuel (of_generator body l0) key reverse = Some (Ok r, c') ->
  (forall fuel' : nat,
      value (collect (Datatypes.S fuel') c') = Some (Ok []))
  /\ kind r = Iterable
  /\ (forall (fuel' : nat) (v : result (list A)) (r' : t A),
         collect fuel' r = Some (v, r') -> r' = r).
Proof.
  unfold sort. intros H.
  destruct (collect fuel (of_generator body l0)) as [[[v|e] c0]|] eqn:E;
    try discriminate.
  inversion H; subst. clear H. split; [|split].
  - exact (collect_generator_again body l0 fuel E).
  - reflexivity.
  - intros fuel' v0 r' Hc. unfold collect, consumed, advance in Hc.
    simpl in Hc.
    destruct (list_ (list_iterator (sorted lt key v reverse)) fuel' 0)
      as [[v1 s1]|]; [|discriminate].
    now inversion Hc.
Qed.

Lemma sort_drains_its_upstream_witness :
  sort Z.ltb 5 (map (of_list [3; 1; 2]%Z) Z.opp) (fun x => x) false
  = Some (Ok (of_list [-3; -2; -1]%Z),
          LazyCollection Generator (Gen true 3)
            (gen_next (map_genexpr (list_iterator [3; 1; 2]%Z) Z.opp)))
  /\ value (collect 1
              (LazyCollection Generator (Gen true 3)
                 (gen_next (map_genexpr (list_iterator [3; 1; 2]%Z) Z.opp))))
     = Some (Ok []).
Proof.
  split; [reflexivity|].
  apply (proj1 (@sort_drains_its_upstream Z Z nat Z.ltb (fun x => x) false
                  (map_genexpr (list_iterator [3; 1; 2]%Z) Z.opp) 0 5
                  (of_list [-3; -2; -1]%Z)
                  (LazyCollection Generator (Gen true 3)
                     (gen_next (map_genexpr (list_iterator [3; 1; 2]%Z) Z.opp)))
                  eq_refl) 0).
Defined.



(** X9. [zip] asks its own source first: when [other] is the shorter one,
    a full draw takes one item more from the source than it pairs up, and
    that item is lost; when the source is not longer than [other], nothing
    is lost.  [other] is never asked for more than the pairs need. *)
Theorem zip_draws_one_more_from_a_longer_source (A O : Type) (l : list A)
        (l2 : list O) (fuel : nat) :
  Nat.min (length l) (length l2) + 1 <= fuel ->
  collect fuel (zip (of_iterator (counted (list_iterator l)) (0, 0))
                    (of_list l2))
  = Some (Ok (combine l l2),
          of_iterator (zip_next (counted (list_iterator l)) (list_iterator l2))
            (if length l <=? length l2
             then ((length l, length l), length l)
             else ((length l2 + 1, length l2 + 1), length l2))).
Proof.
  intros Hf.
  assert (V : value (collect fuel
                       (zip (of_iterator (counted (list_iterator l)) (0, 0))
                            (of_list l2)))
              = Some (Ok (combine l l2))).
  { apply collect_denotes with (k := Nat.max 0 0).
    - exact (@zip_produces A (nat * nat) (counted (list_iterator l)) O nat
               (list_iterator l2) 0 0 l l2 (0, 0) 0
               (@counted_produces A nat (list_iterator l) 0 l 0 0
                  (of_list_produces l))
               (of_list_produces l2)).
    - rewrite length_combine. simpl. lia. }
  destruct (@zip_counted_drain A O l l2 (Nat.min (length l) (length l2))
              0 0 0 [] fuel ltac:(lia) Hf) as [v E].
  unfold collect, consumed, list_, value in *.
  cbn [zip of_iterator of_list __iter__ next _source kind state advance] in *.
  rewrite E in *. simpl in V. inversion V; subst.
  rewrite !Nat.sub_0_r.
  destruct (Nat.leb_spec (length l) (length l2)).
  - now rewrite Nat.min_l by lia.
  - now rewrite Nat.min_r by lia.
Qed.

Lemma zip_draws_one_more_from_a_longer_source_witness :
  collect 3 (zip (of_iterator (counted (list_iterator [1; 2; 3; 4]%Z)) (0, 0))
                 (of_list [true; false]))
  = Some (Ok [(1%Z, true); (2%Z, false)],
          of_iterator (zip_next (counted (list_iterator [1; 2; 3; 4]%Z))
                                (list_iterator [true; false]))
                      ((3, 3), 2)).
Proof.
  apply (@zip_draws_one_more_from_a_longer_source Z bool [1; 2; 3; 4]%Z
           [true; false] 3).
  simpl. lia.
Defined.

(** X10. [enumerate()] pairs every item of the source with its zero-based
    position: the item at position [i] of the result is [(i, x)] for the
    item [x] at position [i] of the source. *)
Theorem enumerate_numbers_from_zero (A : Type) (c : t A) (k : nat)
        (l : list A) :
  denotes c k l ->
  (forall fuel : nat, k + length l + 1 <= fuel ->
     value (collect fuel (enumerate c))
     = Some (Ok (combine (seq 0 (length l)) l)))
  /\ forall i : nat,
       nth_error (combine (seq 0 (length l)) l) i
       = option_map (pair i) (nth_error l i).
Proof.
  intros H. split.
  - intros fuel Hf. apply collect_denotes with (k := k).
    + unfold denotes. simpl. apply enumerate_produces. exact H.
    + rewrite length_combine, length_seq, Nat.min_id. exact Hf.
  - assert (G : forall (l0 : list A) (b i : nat),
               nth_error (combine (seq b (length l0)) l0) i
               = option_map (pair (b + i)) (nth_error l0 i)).
    { induction l0 as [|x l0 IH]; intros b i; [now destruct i|].
      destruct i as [|i]; simpl.
      - now rewrite Nat.add_0_r.
      - rewrite IH. now replace (Datatypes.S b + i) with (b + Datatypes.S i)
          by lia. }
    intros i. apply (G l 0 i).
Qed.

Lemma enumerate_numbers_from_zero_witness :
  value (collect 3 (enumerate (of_list [true; false])))
  = Some (Ok [(0, true); (1, false)]).
Proof.
  apply (proj1 (@enumerate_numbers_from_zero bool (of_list [true; false]) 0
                  [true; false] (of_list_denotes _)) 3).
  simpl. lia.
Defined.

(** X11. [count()] returns the number of items of the source. *)
Theorem count_is_the_length (A : Type) (c : t A) (k : nat) (l : list A)
        (fuel : nat) :
  denotes c k l -> k + length l + 1 <= fuel ->
  value (count fuel c) = Some (Ok (Z.of_nat (length l))).
Proof.
  intros H Hf. unfold count. rewrite value_consumed.
  destruct (@count_loop_produces A (state c) (next c) k l (__iter__ c) fuel
              0%Z H Hf) as [s' E].
  now rewrite E.
Qed.

Lemma count_is_the_length_witness :
  value (count 4 (of_list [5; 6; 7]%Z)) = Some (Ok 3%Z).
Proof.
  apply (@count_is_the_length Z (of_list [5; 6; 7]%Z) 0 [5; 6; 7]%Z 4
           (of_list_denotes _)).
  simpl. lia.
Defined.

(** X12. [reduce(reducer, initial)] folds the items from the left, starting
    from [initial]: the result is [reducer(... reducer(reducer(initial, x0),
    x1) ..., xn)]. *)
Theorem reduce_folds_from_the_left (A O : Type) (c : t A)
        (reducer : O -> A -> O) (initial : O) (k : nat) (l : list A)
        (fuel : nat) :
  denotes c k l -> k + length l + 1 <= fuel ->
  value (reduce fuel c reducer initial)
  = Some (Ok (fold_left reducer l initial)).
Proof.
  intros H Hf. unfold reduce. rewrite value_consumed.
  destruct (@reduce_loop_produces A (state c) (next c) O reducer k l
              (__iter__ c) fuel initial H Hf) as [s' E].
  now rewrite E.
Qed.

Lemma reduce_folds_from_the_left_witness :
  value (reduce 4 (of_list [1; 2; 3]%Z) Z.sub 10%Z) = Some (Ok 4%Z).
Proof.
  apply (@reduce_folds_from_the_left Z Z (of_list [1; 2; 3]%Z) Z.sub 10%Z 0
           [1; 2; 3]%Z 4 (of_list_denotes _)).
  simpl. lia.
Defined.

(** X13. [any(predicate)] is true exactly when some item of the source
    satisfies the predicate; without a predicate it is true exactly when the
    source is not empty, whatever the items are. *)
Theorem any_tests_for_a_match (A : Type) (c : t A) (k : nat) (l : list A)
        (fuel : nat) :
  denotes c k l -> k + length l + 1 <= fuel ->
  (forall predicate : A -> bool,
      value (any fuel c (Some predicate)) = Some (Ok (existsb predicate l)))
  /\ value (any fuel c None)
     = Some (Ok (match l with [] => false | _ :: _ => true end)).
Proof.
  intros H Hf.
  assert (G : forall predicate : A -> bool,
             value (any fuel c (Some predicate))
             = Some (Ok (existsb predicate l))).
  { intros predicate. unfold any. cbv zeta. rewrite value_consumed.
    destruct (@any_produces _ (gen_next (map_genexpr (next c) predicate)) k
                (List.map predicate l) (Gen false (__iter__ c)) fuel)
      as [s' E].
    - apply map_produces. exact H.
    - rewrite length_map. exact Hf.
    - rewrite E. simpl. now rewrite existsb_of_map. }
  split; [exact G|].
  change (any fuel c None) with (any fuel c (Some (fun _ : A => true))).
  rewrite G. now destruct l.
Qed.

Lemma any_tests_for_a_match_witness :
  value (any 4 (of_list [1; 2; 3]%Z) (Some Z.even)) = Some (Ok true).
Proof.
  apply (proj1 (@any_tests_for_a_match Z (of_list [1; 2; 3]%Z) 0 [1; 2; 3]%Z 4
                  (of_list_denotes _) ltac:(simpl; lia)) Z.even).
Defined.

(** X14. [all(predicate)] is true exactly when every item of the source
    satisfies the predicate. *)
Theorem all_tests_every_item (A : Type) (c : t A) (predicate : A -> bool)
        (k : nat) (l : list A) (fuel : nat) :
  denotes c k l -> k + length l + 1 <= fuel ->
  value (all fuel c predicate) = Some (Ok (forallb predicate l)).
Proof.
  intros H Hf. unfold all. rewrite value_consumed.
  destruct (@all_produces _ (gen_next (map_genexpr (next c) predicate)) k
              (List.map predicate l) (Gen false (__iter__ c)) fuel)
    as [s' E].
  - apply map_produces. exact H.
  - rewrite length_map. exact Hf.
  - rewrite E. simpl. now rewrite forallb_of_map.
Qed.

Lemma all_tests_every_item_witness :
  value (all 4 (of_list [2; 4; 5]%Z) Z.even) = Some (Ok false).
Proof.
  apply (@all_tests_every_item Z (of_list [2; 4; 5]%Z) Z.even 0 [2; 4; 5]%Z 4
           (of_list_denotes _)).
  simpl. lia.
Defined.

(** X15. [any(predicate)] stops at the first match: over a source, finite
    or not, whose first [d] items fail the predicate and whose next item
    satisfies it, it returns true after drawing [d + 1] items, and the rest
    of the source is left to later consumers. *)
Theorem any_stops_at_the_first_match (A : Type) (item_at : nat -> option A)
        (predicate : A -> bool) (d : nat) (x : A) (fuel : nat) :
  (forall j, j < d -> exists y, item_at j = Some y /\ predicate y = false) ->
  item_at d = Some x -> predicate x = true -> d + 1 <= fuel ->
  any fuel (of_iterator (counted (seq_next item_at)) (0, 0)) (Some predicate)
  = Some (Ok true,
          of_iterator (counted (seq_next item_at)) (d + 1, d + 1)).
Proof.
  intros Hskip Hx Hp Hf.
  unfold any, consumed, of_iterator, __iter__, advance.
  cbn [next _source kind state].
  now rewrite (@any_counted_first A item_at predicate x d 0 0 fuel Hskip Hx
                 Hp Hf).
Qed.

Lemma any_stops_at_the_first_match_witness :
  any 3 (of_iterator (counted count_iterator) (0, 0))
      (Some (fun x => 1 <? x)%Z)
  = Some (Ok true, of_iterator (counted count_iterator) (3, 3)).
Proof.
  apply (@any_stops_at_the_first_match Z (fun i => Some (Z.of_nat i))
           (fun x => 1 <? x)%Z 2 2%Z 3).
  - intros j Hj.
    destruct j as [|[|j]]; [exists 0%Z | exists 1%Z | lia]; split; reflexivity.
  - reflexivity.
  - reflexivity.
  - lia.
Defined.

(** X16. [all(predicate)] stops at the first failure: over a source, finite
    or not, whose first [d] items satisfy the predicate and whose next item
    fails it, it returns false after drawing [d + 1] items. *)
Theorem all_stops_at_the_first_failure (A : Type) (item_at : nat -> option A)
        (predicate : A -> bool) (d : nat) (x : A) (fuel : nat) :
  (forall j, j < d -> exists y, item_at j = Some y /\ predicate y = true) ->
  item_at d = Some x -> predicate x = false -> d + 1 <= fuel ->
  all fuel (of_iterator (counted (seq_next item_at)) (0, 0)) predicate
  = Some (Ok false,
          of_iterator (counted (seq_next item_at)) (d + 1, d + 1)).
Proof.
  intros Hskip Hx Hp Hf.
  unfold all, consumed, of_iterator, __iter__, advance.
  cbn [next _source kind state].
  now rewrite (@all_counted_first A item_at predicate x d 0 0 fuel Hskip Hx
                 Hp Hf).
Qed.

Lemma all_stops_at_the_first_failure_witness :
  all 3 (of_iterator (counted count_iterator) (0, 0)) (fun x => x <? 2)%Z
  = Some (Ok false, of_iterator (counted count_iterator) (3, 3)).
Proof.
  apply (@all_stops_at_the_first_failure Z (fun i => Some (Z.of_nat i))
           (fun x => x <? 2)%Z 2 2%Z 3).
  - intros j Hj.
    destruct j as [|[|j]]; [exists 0%Z | exists 1%Z | lia]; split; reflexivity.
  - reflexivity.
  - reflexivity.
  - lia.
Defined.

(** X17. [chunk(size)] with a positive size splits the source into
    consecutive groups of [size] items: group [i] holds the items at
    positions [i * size] to [i * size + size - 1], the last group holds
    what is left, no group is empty, and the groups concatenated give the
    source back. *)
Theorem chunk_splits_into_groups (A : Type) (c : t A) (size : Z) (k : nat)
        (l : list A) (fuel : nat) :
  (0 < size)%Z -> denotes c k l -> k + 2 * length l + 2 <= fuel ->
  exists gs : list (list A),
    value (collect fuel (chunk c size)) = Some (Ok gs)
    /\ concat gs = l
    /\ forall i : nat,
         nth_error gs i
         = if i * Z.to_nat size <? length l
           then Some (firstn (Z.to_nat size) (skipn (i * Z.to_nat size) l))
           else None.
Proof.
  intros Hsize H Hf.
  assert (Hn : 0 < Z.to_nat size) by lia.
  exists (chunks (Z.to_nat size) l). split; [|split].
  - apply collect_denotes with (k := k + length l + 1).
    + unfold denotes. simpl.
      apply chunk_produces_positive with (m := length l);
        [exact Hsize | lia | exact H].
    + assert (length (chunks (Z.to_nat size) l) <= length l); [|lia].
      apply nth_error_None. rewrite chunks_nth_error by exact Hn.
      now replace (length l * Z.to_nat size <? length l) with false
        by (symmetry; apply Nat.ltb_ge; nia).
  - apply chunks_concat with (m := length l); [exact Hn | lia].
  - intros i. apply chunks_nth_error. exact Hn.
Qed.

Lemma chunk_splits_into_groups_witness :
  exists gs : list (list Z),
    value (collect 12 (chunk (of_list [0; 1; 2; 3; 4]%Z) 2)) = Some (Ok gs)
    /\ concat gs = [0; 1; 2; 3; 4]%Z
    /\ forall i : nat,
         nth_error gs i
         = if i * 2 <? 5
           then Some (firstn 2 (skipn (i * 2) [0; 1; 2; 3; 4]%Z))
           else None.
Proof.
  apply (@chunk_splits_into_groups Z (of_list [0; 1; 2; 3; 4]%Z) 2 0
           [0; 1; 2; 3; 4]%Z 12 ltac:(lia) (of_list_denotes _)
           ltac:(simpl; lia)).
Defined.

(** X18. [range(start, stop, step)] with both bounds: a zero step is
    rejected with ValueError by the call itself, with or without [stop];
    otherwise the result is restartable and holds the numbers
    [start + i * step], [i >= 0], on the near side of [stop], so it is
    empty when [stop] does not lie ahead of [start] in the direction of the
    step. *)
Theorem range_with_both_bounds (start stop step : Z) :
  (forall stop_opt : option Z,
      range start stop_opt 0
      = Err (ValueError "range() arg 3 must not be zero"))
  /\ (step <> 0%Z ->
      exists c : t Z,
        range start (Some stop) step = Ok c
        /\ kind c = Iterable
        /\ (forall fuel : nat,
              length (range_items start stop step) + 1 <= fuel ->
              value (collect fuel c)
              = Some (Ok (range_items start stop step)))
        /\ (forall x : Z,
              In x (range_items start stop step)
              <-> exists i : Z,
                    (0 <= i)%Z /\ x = (start + i * step)%Z
                    /\ (if (0 <? step)%Z then (x < stop)%Z
                        else (stop < x)%Z))
        /\ ((if (0 <? step)%Z then (stop <= start)%Z else (start <= stop)%Z) ->
            range_items start stop step = [])).
Proof.
  split.
  - intros [s|]; reflexivity.
  - intros Hstep. unfold range, builtin_range.
    replace (step =? 0)%Z with false by (symmetry; apply Z.eqb_neq; exact Hstep).
    eexists. split; [reflexivity|]. split; [reflexivity|]. split; [|split].
    + intros fuel Hf.
      apply collect_denotes with (k := 0); [|exact Hf].
      apply range_iterator_produces.
    + intros x. apply range_items_spec. exact Hstep.
    + intros Hb. unfold range_items, range_len.
      destruct (0 <? step)%Z.
      * now replace (start <? stop)%Z with false
          by (symmetry; apply Z.ltb_ge; exact Hb).
      * now replace (stop <? start)%Z with false
          by (symmetry; apply Z.ltb_ge; exact Hb).
Qed.

Lemma range_with_both_bounds_witness :
  exists c : t Z,
    range 5 (Some 0%Z) (-2) = Ok c
    /\ value (collect 4 c) = Some (Ok [5; 3; 1]%Z).
Proof.
  destruct (proj2 (range_with_both_bounds 5 0 (-2)) ltac:(lia))
    as [c [E [_ [V _]]]].
  exists c. split; [exact E|]. apply (V 4). simpl. lia.
Defined.

(** X19. An exception raised by the source while a pipeline is drawn
    travels through [filter] and [map] to the consumer: [collect] raises it
    and returns no partial list, and the pipeline is finished afterwards,
    so collecting it again returns the empty list instead of raising. *)
Theorem source_exception_reaches_the_consumer (A O : Type) (c : t A)
        (predicate : A -> bool) (transform : A -> O) (k : nat) (l : list A)
        (e : exn) (fuel : nat) :
  fails_after (next c) k (__iter__ c) l e ->
  k + 2 * length l + 2 <= fuel ->
  exists m : t O,
    collect fuel (map (filter c predicate) transform) = Some (Err e, m)
    /\ forall fuel' : nat,
         value (collect (Datatypes.S fuel') m) = Some (Ok []).
Proof.
  intros H Hf.
  pose proof (@map_fails A _ _ O transform _ e _ _
                (@filter_fails A _ (next c) predicate k e l (__iter__ c) H))
    as F.
  destruct (@list_loop_fails _ _ _ _ e _ _ fuel [] F) as [g E].
  { rewrite length_map. pose proof (filter_length_le predicate l). lia. }
  unfold collect, consumed, list_.
  cbn [map filter of_generator __iter__ next _source kind state advance].
  rewrite E. eexists. split; [reflexivity|].
  apply spent_generator_is_empty.
  exact (list_loop_generator_spent _ _ _ _ E).
Qed.

Lemma source_exception_reaches_the_consumer_witness :
  exists m : t Z,
    collect 8
      (map (filter
              (of_iterator
                 (fun (_ : nat) (i : nat) =>
                    if i <? 2 then Some (Yield (Z.of_nat i) (Datatypes.S i))
                    else Some (Raise (Exception "source failed") i))
                 0)
              Z.even)
           Z.succ)
    = Some (Err (Exception "source failed"), m)
    /\ forall fuel' : nat,
         value (collect (Datatypes.S fuel') m) = Some (Ok []).
Proof.
  apply (@source_exception_reaches_the_consumer Z Z
           (of_iterator
              (fun (_ : nat) (i : nat) =>
                 if i <? 2 then Some (Yield (Z.of_nat i) (Datatypes.S i))
                 else Some (Raise (Exception "source failed") i))
              0)
           Z.even Z.succ 0 [0; 1]%Z (Exception "source failed") 8).
  - simpl. exists 1. split; [reflexivity|].
    exists 2. split; [reflexivity|].
    exists 2. reflexivity.
  - simpl. lia.
Defined.

(** X20. [first()] returns the first item and consumes it from a
    generator-backed instance, so a later [collect] on the same instance
    returns the remaining items only; an instance that wraps a list is left
    unchanged, and a later [collect] returns every item again. *)
Theorem first_consumes_from_a_generator (A : Type) (c : t A) (k : nat)
        (x : A) (l : list A) (fuel : nat) :
  denotes c k (x :: l) -> k <= fuel ->
  exists c' : t A,
    first fuel c = Some (Ok (Some x), c')
    /\ (kind c = Iterable -> c' = c)
    /\ (kind c = Generator ->
        forall fuel' : nat, k + length l + 1 <= fuel' ->
          value (collect fuel' c') = Some (Ok l)).
Proof.
  intros [s' [H Hl]] Hf.
  unfold first. rewrite H by exact Hf.
  eexists. split; [reflexivity|]. unfold advance. split.
  - intros Hk. now rewrite Hk.
  - intros Hk fuel' Hf'. rewrite Hk.
    apply collect_denotes with (k := k); [exact Hl | exact Hf'].
Qed.

Lemma first_consumes_from_a_generator_witness :
  exists c' : t Z,
    first 3 (map (of_list [1; 2; 3]%Z) Z.succ) = Some (Ok (Some 2%Z), c')
    /\ forall fuel' : nat, 3 <= fuel' ->
         value (collect fuel' c') = Some (Ok [3; 4]%Z).
Proof.
  destruct (@first_consumes_from_a_generator Z
              (map (of_list [1; 2; 3]%Z) Z.succ) 0 2%Z [3; 4]%Z 3)
    as [c' [E [_ R]]].
  - apply (@map_produces Z nat (list_iterator [1; 2; 3]%Z) Z Z.succ 0
             [1; 2; 3]%Z 0 (of_list_produces _)).
  - lia.
  - exists c'. split; [exact E|]. intros fuel' Hf. apply R; [reflexivity|].
    simpl. lia.
Defined.

Lemma getitem_absent (K V : Type) (eqb : K -> K -> bool) (d : dict K V)
      (key : K) :
  contains eqb d key = false -> getitem eqb d key = None.
Proof.
  induction d as [|[k v] d IH]; simpl; [reflexivity|].
  destruct (eqb k key); [discriminate | exact IH].
Qed.

(** X21. Looking up the result of [group_by] over items with hashable
    keys: the key of every item of the source is present and maps to the
    items of the source with that key, in source order, the item itself
    among them; a hashable key that no item has is absent; no group is
    empty. *)
Theorem group_by_lookup (A K : Type) (hash : K -> option Z)
        (eqb : K -> K -> bool) (key_func : A -> K) (c : t A) (k : nat)
        (l : list A) (fuel : nat) :
  (forall x y : K, eqb x y = true <-> x = y) ->
  (forall x : A, In x l -> hash (key_func x) <> None) ->
  denotes c k l -> k + length l + 1 <= fuel ->
  exists d : dict K (list A),
    value (group_by hash eqb fuel c key_func) = Some (Ok d)
    /\ (forall x : A, In x l ->
          getitem eqb d (key_func x)
          = Some (List.filter (fun y => eqb (key_func y) (key_func x)) l)
          /\ In x (List.filter (fun y => eqb (key_func y) (key_func x)) l))
    /\ (forall key : K, hash key <> None ->
          (forall x : A, In x l -> key_func x <> key) ->
          contains eqb d key = false /\ getitem eqb d key = None)
    /\ (forall (key : K) (v : list A), In (key, v) d -> v <> []).
Proof.
  intros eqb_eq Hh H Hf.
  exists (groups_of eqb key_func l). split; [|split; [|split]].
  - destruct (@group_by_loop_groups A K eqb eqb_eq key_func hash (state c)
                (next c) k l [] (__iter__ c) fuel H Hf Hh) as [s' E].
    unfold group_by. rewrite value_consumed.
    change (@nil (K * list A)) with (groups_of eqb key_func []).
    now rewrite E.
  - intros x Hx. split.
    + unfold groups_of.
      apply (@getitem_keyed K eqb eqb_eq (list A)
               (fun k0 => List.filter (fun y => eqb (key_func y) k0) l)).
      apply first_occurrences_in; [exact eqb_eq|].
      now apply in_map.
    + apply filter_In. split; [exact Hx | now apply eqb_eq].
  - intros key _ Hkey.
    assert (C : contains eqb (groups_of eqb key_func l) key = false).
    { destruct (contains eqb (groups_of eqb key_func l) key) eqn:E;
        [|reflexivity].
      apply contains_keys in E; [|exact eqb_eq].
      unfold groups_of in E. rewrite keys_keyed in E.
      apply first_occurrences_in in E; [|exact eqb_eq].
      apply in_map_iff in E. destruct E as [x [Ex Hx]].
      exfalso. exact (Hkey x Hx Ex). }
    split; [exact C | now apply getitem_absent].
  - intros key v Hin. unfold groups_of in Hin.
    apply in_map_iff in Hin. destruct Hin as [k0 [E Hk0]].
    inversion E; subst. clear E.
    apply first_occurrences_in in Hk0; [|exact eqb_eq].
    apply in_map_iff in Hk0. destruct Hk0 as [x [Ex Hx]].
    assert (Hf' : In x (List.filter (fun y => eqb (key_func y) key) l)).
    { apply filter_In. split; [exact Hx | now apply eqb_eq]. }
    intros Hv. rewrite Hv in Hf'. contradiction.
Qed.

Lemma group_by_lookup_witness :
  exists d : dict Z (list Z),
    value (group_by (fun x => Some x) Z.eqb 5 (of_list [1; 2; 3; 4]%Z)
                    (fun x => x mod 2)%Z)
    = Some (Ok d)
    /\ getitem Z.eqb d 1%Z = Some [1; 3]%Z
    /\ contains Z.eqb d 2%Z = false.
Proof.
  destruct (@group_by_lookup Z Z (fun x => Some x) Z.eqb (fun x => x mod 2)%Z
              (of_list [1; 2; 3; 4]%Z) 0 [1; 2; 3; 4]%Z 5 Z.eqb_eq
              ltac:(intros x _; discriminate)
              (of_list_denotes _) ltac:(simpl; lia))
    as [d [E [Hin [Hout _]]]].
  exists d. split; [exact E|]. split.
  - apply (proj1 (Hin 1%Z ltac:(simpl; tauto))).
  - apply Hout; [discriminate|].
    intros x [Hx|[Hx|[Hx|[Hx|[]]]]]; subst; discriminate.
Defined.

(** X22. [count] and [reduce] draw a generator-backed instance to its end:
    whatever they return, the instance is spent afterwards, and collecting
    it returns the empty list. *)
Theorem count_and_reduce_spend_a_generator (A L : Type) (body : next_fn A L)
        (l0 : L) (fuel : nat) :
  (forall (r : result Z) (c' : t A),
      count fuel (of_generator body l0) = Some (r, c') ->
      forall fuel' : nat,
        value (collect (Datatypes.S fuel') c') = Some (Ok []))
  /\ (forall (O : Type) (reducer : O -> A -> O) (initial : O)
             (r : result O) (c' : t A),
         reduce fuel (of_generator body l0) reducer initial = Some (r, c') ->
         forall fuel' : nat,
           value (collect (Datatypes.S fuel') c') = Some (Ok [])).
Proof.
  split.
  - intros r c'. unfold count, consumed.
    cbn [of_generator __iter__ next _source kind state advance].
    destruct (count_loop (gen_next body) fuel (Gen false l0) 0)
      as [[r0 g]|] eqn:E; [|discriminate].
    intros H. inversion H; subst.
    apply spent_generator_is_empty.
    exact (count_loop_generator_spent _ _ _ _ E).
  - intros O reducer initial r c'. unfold reduce, consumed.
    cbn [of_generator __iter__ next _source kind state advance].
    destruct (reduce_loop (gen_next body) reducer fuel (Gen false l0) initial)
      as [[r0 g]|] eqn:E; [|discriminate].
    intros H. inversion H; subst.
    apply spent_generator_is_empty.
    exact (reduce_loop_generator_spent _ _ _ _ _ E).
Qed.

Lemma count_and_reduce_spend_a_generator_witness :
  count 5 (filter (of_list [1; 2; 3]%Z) Z.odd)
  = Some (Ok 2%Z,
          LazyCollection Generator (Gen true 3)
            (gen_next (filter_genexpr (list_iterator [1; 2; 3]%Z) Z.odd)))
  /\ value (collect 1
              (LazyCollection Generator (Gen true 3)
                 (gen_next (filter_genexpr (list_iterator [1; 2; 3]%Z) Z.odd))))
     = Some (Ok []).
Proof.
  split; [reflexivity|].
  apply (proj1 (@count_and_reduce_spend_a_generator Z nat
                  (filter_genexpr (list_iterator [1; 2; 3]%Z) Z.odd) 0 5)
           (Ok 2%Z)
           (LazyCollection Generator (Gen true 3)
              (gen_next (filter_genexpr (list_iterator [1; 2; 3]%Z) Z.odd)))
           eq_refl 0).
Defined.

Section Fusion.
Variable A : Type.

Lemma filter_denotes (c : t A) (predicate : A -> bool) (k : nat)
      (l : list A) :
  denotes c k l ->
  denotes (filter c predicate) (k + length l + 1) (List.filter predicate l).
Proof. intros H. unfold denotes. simpl. apply filter_produces. exact H. Qed.

Lemma map_denotes (O : Type) (c : t A) (transform : A -> O) (k : nat)
      (l : list A) :
  denotes c k l -> denotes (map c transform) k (List.map transform l).
Proof. intros H. unfold denotes. simpl. apply map_produces. exact H. Qed.
End Fusion.

(** X23. Chained [map] and [filter] calls fuse: [map(f).map(g)] collects to
    what [map] with the composed function does, [filter(p).filter(q)] to
    what [filter] with both tests does, and [map(f).filter(p)] to what
    filtering on [p(f(x))] first and mapping afterwards does. *)
Theorem map_and_filter_fuse (A B C : Type) (c : t A) (f : A -> B) (g : B -> C)
        (p q : A -> bool) (r : B -> bool) (k : nat) (l : list A)
        (fuel : nat) :
  denotes c k l -> k + 3 * length l + 3 <= fuel ->
  (value (collect fuel (map (map c f) g))
   = Some (Ok (List.map (fun x => g (f x)) l))
   /\ value (collect fuel (map c (fun x => g (f x))))
      = Some (Ok (List.map (fun x => g (f x)) l)))
  /\ (value (collect fuel (filter (filter c p) q))
      = Some (Ok (List.filter (fun x => p x && q x) l))
      /\ value (collect fuel (filter c (fun x => p x && q x)))
         = Some (Ok (List.filter (fun x => p x && q x) l)))
  /\ (value (collect fuel (filter (map c f) r))
      = Some (Ok (List.map f (List.filter (fun x => r (f x)) l)))
      /\ value (collect fuel (map (filter c (fun x => r (f x))) f))
         = Some (Ok (List.map f (List.filter (fun x => r (f x)) l)))).
Proof.
  intros H Hf.
  assert (Lp : forall t : A -> bool, length (List.filter t l) <= length l)
    by (intros t; apply filter_length_le).
  repeat split.
  - rewrite <- map_map.
    apply collect_denotes with (k := k).
    + apply map_denotes, map_denotes, H.
    + rewrite !length_map. lia.
  - apply collect_denotes with (k := k).
    + apply map_denotes, H.
    + rewrite length_map. lia.
  - rewrite <- filter_filter_both.
    eapply collect_denotes.
    + apply filter_denotes, filter_denotes, H.
    + pose proof (Lp p).
      pose proof (filter_length_le q (List.filter p l)). lia.
  - eapply collect_denotes.
    + apply filter_denotes, H.
    + pose proof (Lp (fun x => p x && q x)). lia.
  - rewrite <- filter_map_swap.
    eapply collect_denotes.
    + apply filter_denotes, map_denotes, H.
    + pose proof (filter_length_le r (List.map f l)).
      rewrite length_map in *. lia.
  - eapply collect_denotes.
    + apply map_denotes, filter_denotes, H.
    + rewrite length_map. pose proof (Lp (fun x => r (f x))). lia.
Qed.

Lemma map_and_filter_fuse_witness :
  value (collect 12 (filter (map (of_list [1; 2; 3]%Z) Z.succ) Z.even))
  = Some (Ok [2; 4]%Z).
Proof.
  apply (proj1 (proj2 (proj2 (@map_and_filter_fuse Z Z Z
                                (of_list [1; 2; 3]%Z) Z.succ Z.succ
                                Z.even Z.even Z.even 0 [1; 2; 3]%Z 12
                                (of_list_denotes _) ltac:(simpl; lia))))).
Defined.

(** X24. Chained [take] and [skip] calls compose: [take(a).take(b)] hands
    out what [take(min(a, b))] does; for non-negative counts
    [skip(a).skip(b)] hands out what [skip(a + b)] does, and
    [take(a + b).skip(a)] what [skip(a).take(b)] does. *)
Theorem take_and_skip_compose (A : Type) (c : t A) (a b : Z) (k : nat)
        (l : list A) (fuel : nat) :
  denotes c k l -> k + 3 * length l + 3 <= fuel ->
  (value (collect fuel (take (take c a) b))
   = Some (Ok (firstn (Z.to_nat (Z.min a b)) l))
   /\ value (collect fuel (take c (Z.min a b)))
      = Some (Ok (firstn (Z.to_nat (Z.min a b)) l)))
  /\ ((0 <= a)%Z -> (0 <= b)%Z ->
      (value (collect fuel (skip (skip c a) b))
       = Some (Ok (skipn (Z.to_nat (a + b)) l))
       /\ value (collect fuel (skip c (a + b)))
          = Some (Ok (skipn (Z.to_nat (a + b)) l)))
      /\ (value (collect fuel (skip (take c (a + b)) a))
          = Some (Ok (firstn (Z.to_nat b) (skipn (Z.to_nat a) l)))
          /\ value (collect fuel (take (skip c a) b))
             = Some (Ok (firstn (Z.to_nat b) (skipn (Z.to_nat a) l))))).
Proof.
  intros H Hf.
  assert (Lf : forall n (l0 : list A), length (firstn n l0) <= length l0)
    by (intros n l0; rewrite length_firstn; lia).
  assert (Ls : forall n (l0 : list A), length (skipn n l0) <= length l0)
    by (intros n l0; rewrite length_skipn; lia).
  split; [split|].
  - rewrite Z2Nat.inj_min, Nat.min_comm, <- firstn_firstn.
    eapply collect_denotes.
    + apply take_denotes, take_denotes, H.
    + pose proof (Lf (Z.to_nat b) (firstn (Z.to_nat a) l)).
      pose proof (Lf (Z.to_nat a) l). lia.
  - eapply collect_denotes.
    + apply take_denotes, H.
    + pose proof (Lf (Z.to_nat (Z.min a b)) l). lia.
  - intros Ha Hb. split; split.
    + replace (Z.to_nat (a + b)) with (Z.to_nat b + Z.to_nat a) by lia.
      rewrite <- skipn_skipn.
      eapply collect_denotes.
      * apply skip_denotes, skip_denotes, H.
      * pose proof (Ls (Z.to_nat b) (skipn (Z.to_nat a) l)).
        pose proof (Ls (Z.to_nat a) l). lia.
    + eapply collect_denotes.
      * apply skip_denotes, H.
      * pose proof (Ls (Z.to_nat (a + b)) l). lia.
    + rewrite firstn_skipn_comm.
      replace (Z.to_nat a + Z.to_nat b) with (Z.to_nat (a + b)) by lia.
      eapply collect_denotes.
      * apply skip_denotes, take_denotes, H.
      * pose proof (Ls (Z.to_nat a) (firstn (Z.to_nat (a + b)) l)).
        pose proof (Lf (Z.to_nat (a + b)) l). lia.
    + eapply collect_denotes.
      * apply take_denotes, skip_denotes, H.
      * pose proof (Lf (Z.to_nat b) (skipn (Z.to_nat a) l)).
        pose proof (Ls (Z.to_nat a) l). lia.
Qed.

Lemma take_and_skip_compose_witness :
  value (collect 20 (skip (skip (of_list [1; 2; 3; 4; 5]%Z) 1) 2))
  = Some (Ok [4; 5]%Z).
Proof.
  apply (proj1 (proj1 (proj2 (@take_and_skip_compose Z
                                (of_list [1; 2; 3; 4; 5]%Z) 1 2 0
                                [1; 2; 3; 4; 5]%Z 20 (of_list_denotes _)
                                ltac:(simpl; lia))
                         ltac:(lia) ltac:(lia)))).
Defined.

(** X25. [paginate] does not check its arguments: page 1, page 0 and every
    negative page with a non-negative [per_page] all return the first
    [per_page] items, and a [per_page] of zero or less returns no items on
    every page; none of them raises. *)
Theorem paginate_out_of_range_arguments (A : Type) (c : t A)
        (page per_page : Z) (k : nat) (l : list A) (fuel : nat) :
  denotes c k l -> k + 2 * length l + 2 <= fuel ->
  ((page <= 1)%Z -> (0 <= per_page)%Z ->
   value (collect fuel (paginate c page per_page))
   = Some (Ok (firstn (Z.to_nat per_page) l)))
  /\ ((per_page <= 0)%Z ->
      value (collect fuel (paginate c page per_page)) = Some (Ok [])).
Proof.
  intros H Hf.
  assert (E : value (collect fuel (paginate c page per_page))
              = Some (Ok (firstn (Z.to_nat per_page)
                            (skipn (Z.to_nat ((page - 1) * per_page)) l)))).
  { unfold paginate. eapply collect_denotes.
    - apply take_denotes, skip_denotes, H.
    - rewrite length_firstn, length_skipn. lia. }
  split.
  - intros Hp Hpp. rewrite E.
    now replace (Z.to_nat ((page - 1) * per_page)) with 0 by nia.
  - intros Hpp. rewrite E.
    now replace (Z.to_nat per_page) with 0 by lia.
Qed.

Lemma paginate_out_of_range_arguments_witness :
  value (collect 12 (paginate (of_list [1; 2; 3; 4; 5]%Z) (-3) 2))
  = Some (Ok [1; 2]%Z).
Proof.
  apply (proj1 (@paginate_out_of_range_arguments Z
                  (of_list [1; 2; 3; 4; 5]%Z) (-3) 2 0 [1; 2; 3; 4; 5]%Z 12
                  (of_list_denotes _) ltac:(simpl; lia))
           ltac:(lia) ltac:(lia)).
Defined.
